(** * Deribit trader: order registry, order-book cache, subscription broker

    A shallow embedding of the three stateful components of the trading
    middleware (src/src/order_manager.cpp, src/src/market_data.cpp and
    src/src/websocket_server.cpp) together with the properties the
    specification states about them.

    Conventions of the embedding.
    - [std::map<std::string, V>] is a [gmap string V], [std::set<std::string>]
      a [gset string]; where the code iterates a set the model walks it in
      ascending key order, as the C++ containers do.
    - [double] is a primitive binary64 [float]; [int64_t] timestamps are [Z].
    - Each read of [std::chrono::system_clock::now()] is an explicit argument
      (the reading), in the order the code performs the reads.
    - A mutex-protected critical section is one atomic step of the model.
    - [json::parse] is the given codec: every handler receives the parsed
      document, or [None] when parsing threw.
    - What a handler writes to [std::cerr] from its [catch] block is returned
      as the caught [exception]; network sends, API calls and callback
      invocations are returned as event lists. *)

From Stdlib Require Import ZArith String Ascii PrimFloat.
From Stdlib Require DecimalString.
From stdpp Require Import gmap strings list fin_maps sorting.

Set Warnings "-register-all,-clear-no-such-hyp".

Local Open Scope string_scope.
Local Open Scope list_scope.
Local Open Scope Z_scope.

(** ** Exceptions *)

(** The exceptions the modelled code can meet; all of them derive from
    [std::exception] and are caught by the handlers' [catch] blocks. *)
Inductive exception : Type :=
| parse_error      (* json::parse on malformed text *)
| type_error       (* nlohmann type_error 302 / 305 *)
| out_of_range.    (* std::map::at on a missing key *)

Inductive throws (A : Type) : Type :=
| Ok (a : A)
| Throw (e : exception).
Arguments Ok {A} a.
Arguments Throw {A} e.

#[global] Instance throws_ret : MRet throws := fun A a => Ok a.
#[global] Instance throws_bind : MBind throws := fun A B f m =>
  match m with
  | Ok a => f a
  | Throw e => Throw e
  end.

(** ** The JSON document model (nlohmann::json) *)

Module Json.

(** The three numeric kinds of the library are collapsed into the [double]
    that [get<double>()] converts each of them to.  An object lists its
    members in key order, as the underlying [std::map] iterates them. *)
Inductive json : Type :=
| JNull
| JBool (b : bool)
| JNumber (d : float)
| JString (s : string)
| JArray (elems : list json)
| JObject (members : list (string * json)).

Fixpoint assoc (key : string) (members : list (string * json)) : option json :=
  match members with
  | [] => None
  | (k, v) :: rest => if String.eqb k key then Some v else assoc key rest
  end.

(** [j.contains(key)]: true only for an object holding the key. *)
Definition contains (j : json) (key : string) : bool :=
  match j with
  | JObject members => bool_decide (is_Some (assoc key members))
  | _ => false
  end.

(** [j[key]] on a non-const document: a missing member (and a null
    document) yields null, any other non-object throws type_error 305.
    The null member that the library inserts into the local document is
    never read back by the modelled code. *)
Definition subscript (j : json) (key : string) : throws json :=
  match j with
  | JObject members => Ok (default JNull (assoc key members))
  | JNull => Ok JNull
  | _ => Throw type_error
  end.

(** [j[key]] through a const reference: the member must exist.  The
    library asserts on a missing member and leaves the behaviour undefined
    otherwise; the model reports it as a thrown [out_of_range]. *)
Definition const_subscript (j : json) (key : string) : throws json :=
  match j with
  | JObject members =>
      match assoc key members with
      | Some v => Ok v
      | None => Throw out_of_range
      end
  | _ => Throw type_error
  end.

(** [j.get<std::string>()] and the implicit conversion to [std::string]. *)
Definition get_string (j : json) : throws string :=
  match j with
  | JString s => Ok s
  | _ => Throw type_error
  end.

(** [j.get<double>()] and the implicit conversion to [double]. *)
Definition get_double (j : json) : throws float :=
  match j with
  | JNumber d => Ok d
  | _ => Throw type_error
  end.

Definition is_array (j : json) : bool :=
  match j with
  | JArray _ => true
  | _ => false
  end.

(** [j.size()]: 0 for null, 1 for a scalar, the element count otherwise. *)
Definition size (j : json) : nat :=
  match j with
  | JNull => 0
  | JArray elems => length elems
  | JObject members => length members
  | _ => 1
  end.

(** The sequence a range-[for] over [j] visits. *)
Definition items (j : json) : list json :=
  match j with
  | JNull => []
  | JArray elems => elems
  | JObject members => members.*2
  | _ => [j]
  end.

(** [j[idx]] through a const reference to an array ([idx] in range at
    every call site of the modelled code). *)
Definition const_index (j : json) (idx : nat) : throws json :=
  match j with
  | JArray elems =>
      match elems !! idx with
      | Some v => Ok v
      | None => Throw out_of_range
      end
  | _ => Throw type_error
  end.

(** [j == "literal"]. *)
Definition eqb_string (j : json) (lit : string) : bool :=
  match j with
  | JString s => String.eqb s lit
  | _ => false
  end.

End Json.
Import Json.

(** [std::to_string] on an [int64_t]. *)
Definition to_string (z : Z) : string :=
  DecimalString.NilZero.string_of_int (Z.to_int z).

(** ** Order registry (include/order_manager.h, src/order_manager.cpp) *)

Module Order.

Inductive Side : Type := BUY | SELL.
Inductive Type_ : Type := LIMIT | MARKET.
Inductive Status : Type :=
| PENDING | OPEN | FILLED | PARTIALLY_FILLED | CANCELLED | REJECTED.

Record t : Type := mk {
  order_id : string;
  instrument : string;
  side : Side;
  type : Type_;
  price : float;
  amount : float;
  filled_amount : float;
  status : Status;
  error_message : string;
  creation_timestamp : Z;
  last_update_timestamp : Z
}.

(** [Order o;]: the members with a default initialiser get it
    ([filled_amount = 0.0], [status = PENDING], empty strings); the others
    keep whatever the storage held, here the fields of [junk]. *)
Definition declared (junk : t) : t :=
  {| order_id := ""; instrument := "";
     side := side junk; type := type junk;
     price := price junk; amount := amount junk;
     filled_amount := 0%float; status := PENDING; error_message := "";
     creation_timestamp := creation_timestamp junk;
     last_update_timestamp := last_update_timestamp junk |}.

Definition set_status (s : Status) (o : t) : t :=
  {| order_id := order_id o; instrument := instrument o;
     side := side o; type := type o; price := price o; amount := amount o;
     filled_amount := filled_amount o; status := s;
     error_message := error_message o;
     creation_timestamp := creation_timestamp o;
     last_update_timestamp := last_update_timestamp o |}.

Definition set_last_update_timestamp (ts : Z) (o : t) : t :=
  {| order_id := order_id o; instrument := instrument o;
     side := side o; type := type o; price := price o; amount := amount o;
     filled_amount := filled_amount o; status := status o;
     error_message := error_message o;
     creation_timestamp := creation_timestamp o;
     last_update_timestamp := ts |}.

Definition set_filled_amount (f : float) (o : t) : t :=
  {| order_id := order_id o; instrument := instrument o;
     side := side o; type := type o; price := price o; amount := amount o;
     filled_amount := f; status := status o;
     error_message := error_message o;
     creation_timestamp := creation_timestamp o;
     last_update_timestamp := last_update_timestamp o |}.

Definition set_error_message (msg : string) (o : t) : t :=
  {| order_id := order_id o; instrument := instrument o;
     side := side o; type := type o; price := price o; amount := amount o;
     filled_amount := filled_amount o; status := status o;
     error_message := msg;
     creation_timestamp := creation_timestamp o;
     last_update_timestamp := last_update_timestamp o |}.

Definition set_price_amount (p a : float) (o : t) : t :=
  {| order_id := order_id o; instrument := instrument o;
     side := side o; type := type o; price := p; amount := a;
     filled_amount := filled_amount o; status := status o;
     error_message := error_message o;
     creation_timestamp := creation_timestamp o;
     last_update_timestamp := last_update_timestamp o |}.

End Order.

Module OrderManager.

(** The requests the registry issues on its [ApiClient]. *)
Inductive api_call : Type :=
| ApiPlaceOrder (instrument : string) (is_buy : bool) (price amount : float)
                (order_type : string)
| ApiCancelOrder (order_id : string)
| ApiModifyOrder (order_id : string) (new_price new_amount : float).

Record t : Type := mk {
  orders_ : gmap string Order.t;
  positions_ : gmap string float
}.

(** A freshly constructed manager. *)
Definition init : t := {| orders_ := ∅; positions_ := ∅ |}.

Definition with_orders (orders : gmap string Order.t) (om : t) : t :=
  {| orders_ := orders; positions_ := positions_ om |}.

Definition with_positions (positions : gmap string float) (om : t) : t :=
  {| orders_ := orders_ om; positions_ := positions |}.

(** [placeOrder]: [t_id] is the clock reading that names the order,
    [t_created] the later one stored as its creation time.  The text the
    API call returns is not looked at. *)
Definition placeOrder (t_id t_created : Z)
    (instrument : string) (side : Order.Side) (price amount : float)
    (type : Order.Type_) (om : t) : string * t * list api_call :=
  let call :=
    ApiPlaceOrder instrument
      (match side with Order.BUY => true | Order.SELL => false end)
      price amount
      (match type with Order.LIMIT => "limit" | Order.MARKET => "market" end) in
  let order_id := "order_" +:+ to_string t_id in
  let order :=
    {| Order.order_id := order_id;
       Order.instrument := instrument;
       Order.side := side;
       Order.type := type;
       Order.price := price;
       Order.amount := amount;
       Order.filled_amount := 0%float;
       Order.status := Order.OPEN;
       Order.error_message := "";
       Order.creation_timestamp := t_created;
       Order.last_update_timestamp := t_created |} in
  (order_id, with_orders (<[order_id := order]> (orders_ om)) om, [call]).

(** [cancelOrder]: [success] is what [api_client_->cancelOrder] returned,
    [now] the clock reading taken inside the critical section. *)
Definition cancelOrder (success : bool) (now : Z) (order_id : string)
    (om : t) : bool * t * list api_call :=
  let om' :=
    if success then
      match orders_ om !! order_id with
      | Some o =>
          with_orders
            (<[order_id :=
                 Order.set_last_update_timestamp now
                   (Order.set_status Order.CANCELLED o)]> (orders_ om)) om
      | None => om
      end
    else om in
  (success, om', [ApiCancelOrder order_id]).

Definition modifyOrder (success : bool) (now : Z) (order_id : string)
    (new_price new_amount : float) (om : t) : bool * t * list api_call :=
  let om' :=
    if success then
      match orders_ om !! order_id with
      | Some o =>
          with_orders
            (<[order_id :=
                 Order.set_last_update_timestamp now
                   (Order.set_price_amount new_price new_amount o)]>
               (orders_ om)) om
      | None => om
      end
    else om in
  (success, om', [ApiModifyOrder order_id new_price new_amount]).

(** [getOrder]: the stored order, or the REJECTED sentinel built on a
    default-initialised [Order] ([junk] stands for its unset members). *)
Definition getOrder (junk : Order.t) (order_id : string) (om : t)
    : throws Order.t :=
  if bool_decide (is_Some (orders_ om !! order_id)) then
    match orders_ om !! order_id with       (* orders_.at(order_id) *)
    | Some o => Ok o
    | None => Throw out_of_range
    end
  else
    let empty := Order.declared junk in
    Ok {| Order.order_id := order_id;
          Order.instrument := Order.instrument empty;
          Order.side := Order.side empty;
          Order.type := Order.type empty;
          Order.price := Order.price empty;
          Order.amount := Order.amount empty;
          Order.filled_amount := Order.filled_amount empty;
          Order.status := Order.REJECTED;
          Order.error_message := "Order not found";
          Order.creation_timestamp := Order.creation_timestamp empty;
          Order.last_update_timestamp := Order.last_update_timestamp empty |}.

Definition getCurrentPositions (om : t) : gmap string float := positions_ om.

(** Lines 154-156 of [onOrderUpdate]: the three members every update must
    carry, read in this order. *)
Definition decode_order_update (data : json) : throws (string * string * float) :=
  order_id ← subscript data "order_id" ≫= get_string;
  status ← subscript data "state" ≫= get_string;
  filled_amount ← subscript data "filled_amount" ≫= get_double;
  mret (order_id, status, filled_amount).

(** The if/else-if chain on the external status, applied to the order
    whose fill and update time were just overwritten.  The order is
    mutated through a reference, so when reading the "error" member
    throws, the REJECTED status written before it stays. *)
Definition apply_status (data : json) (status : string)
    (filled_amount : float) (order : Order.t) : Order.t * option exception :=
  if String.eqb status "open" then
    (Order.set_status Order.OPEN order, None)
  else if String.eqb status "filled" then
    (Order.set_status Order.FILLED order, None)
  else if String.eqb status "cancelled" then
    (Order.set_status Order.CANCELLED order, None)
  else if String.eqb status "rejected" then
    let order := Order.set_status Order.REJECTED order in
    if contains data "error" then
      match subscript data "error" ≫= get_string with
      | Ok msg => (Order.set_error_message msg order, None)
      | Throw e => (order, Some e)
      end
    else (order, None)
  else if (PrimFloat.ltb 0 filled_amount
           && PrimFloat.ltb filled_amount (Order.amount order))%bool then
    (Order.set_status Order.PARTIALLY_FILLED order, None)
  else (order, None).

(** [onOrderUpdate]: returns the new registry and the exception its
    [catch] block logged, if any. *)
Definition onOrderUpdate (now : Z) (order_data : option json) (om : t)
    : t * option exception :=
  match order_data with
  | None => (om, Some parse_error)
  | Some data =>
      match decode_order_update data with
      | Throw e => (om, Some e)
      | Ok (order_id, status, filled_amount) =>
          match orders_ om !! order_id with
          | Some o =>
              let order :=
                Order.set_last_update_timestamp now
                  (Order.set_filled_amount filled_amount o) in
              let '(order, caught) :=
                apply_status data status filled_amount order in
              (with_orders (<[order_id := order]> (orders_ om)) om, caught)
          | None => (om, None)
          end
      end
  end.

(** The loop body of [onPositionUpdate], run over the array elements; an
    element that cannot be read ends the loop with the entries written so
    far left in place. *)
Fixpoint populate (elems : list json) (positions : gmap string float)
    : gmap string float * option exception :=
  match elems with
  | [] => (positions, None)
  | position :: rest =>
      match const_subscript position "instrument_name" ≫= get_string with
      | Throw e => (positions, Some e)
      | Ok instrument =>
          match const_subscript position "size" ≫= get_double with
          | Throw e => (positions, Some e)
          | Ok size => populate rest (<[instrument := size]> positions)
          end
      end
  end.

Definition onPositionUpdate (position_data : option json) (om : t)
    : t * option exception :=
  match position_data with
  | None => (om, Some parse_error)
  | Some data =>
      if is_array data then
        let '(positions, caught) := populate (items data) ∅ in
        (with_positions positions om, caught)
      else (om, None)
  end.

(** The calls that reach the registry, each with the clock readings and
    API results it meets, and a run of such calls. *)
Inductive call : Type :=
| PlaceOrder (t_id t_created : Z) (instrument : string) (side : Order.Side)
             (price amount : float) (type : Order.Type_)
| CancelOrder (success : bool) (now : Z) (order_id : string)
| ModifyOrder (success : bool) (now : Z) (order_id : string)
              (new_price new_amount : float)
| OnOrderUpdate (now : Z) (order_data : option json)
| OnPositionUpdate (position_data : option json).

Definition step (om : t) (c : call) : t :=
  match c with
  | PlaceOrder t_id t_created instrument side price amount type =>
      (placeOrder t_id t_created instrument side price amount type om).1.2
  | CancelOrder success now order_id =>
      (cancelOrder success now order_id om).1.2
  | ModifyOrder success now order_id new_price new_amount =>
      (modifyOrder success now order_id new_price new_amount om).1.2
  | OnOrderUpdate now order_data => (onOrderUpdate now order_data om).1
  | OnPositionUpdate position_data => (onPositionUpdate position_data om).1
  end.

Definition run (calls : list call) (om : t) : t := foldl step om calls.

(** The clock readings a call is given, in the order it takes them. *)
Definition readings (c : call) : list Z :=
  match c with
  | PlaceOrder t_id t_created _ _ _ _ _ => [t_id; t_created]
  | CancelOrder _ now _ => [now]
  | ModifyOrder _ now _ _ _ => [now]
  | OnOrderUpdate now _ => [now]
  | OnPositionUpdate _ => []
  end.

Definition clock_readings (calls : list call) : list Z :=
  concat (readings <$> calls).

(** Every recorded order was last touched no earlier than it was created,
    at one of the clock readings [seen]. *)
Definition stamped_within (seen : list Z) (om : t) : Prop :=
  ∀ (order_id : string) (o : Order.t),
    orders_ om !! order_id = Some o →
    Order.creation_timestamp o ≤ Order.last_update_timestamp o
    ∧ Order.last_update_timestamp o ∈ seen.

(** An element of a position update that carries the given pair: an object
    whose "instrument_name" member is that string and whose "size" member is
    that number (other members may be present). *)
Definition position_entry (position : json) (entry : string * float) : Prop :=
  ∃ members : list (string * json),
    position = JObject members
    ∧ assoc "instrument_name" members = Some (JString entry.1)
    ∧ assoc "size" members = Some (JNumber entry.2).

(** The status strings the if/else-if chain of [onOrderUpdate] names. *)
Definition recognised_statuses : list string :=
  ["open"; "filled"; "cancelled"; "rejected"].

End OrderManager.

(** ** Order-book cache (include/market_data.h, src/market_data.cpp) *)

(** [s.find(pattern)]; [None] is [std::string::npos]. *)
Definition find (s pattern : string) : option nat := String.index 0 pattern s.

(** [s.substr(pos)] for [pos <= s.size()]. *)
Definition substr_from (s : string) (pos : nat) : string :=
  String.substring pos (String.length s - pos) s.

Module Orderbook.

Record Level : Type := mkLevel {
  price : float;
  size : float
}.

Record t : Type := mk {
  instrument : string;
  bids : list Level;
  asks : list Level;
  timestamp : Z
}.

End Orderbook.

Module MarketDataClient.

(** What the client does to the outside: calls on its [ApiClient] and
    invocations of the registered update callback. *)
Inductive event : Type :=
| ConnectWebSocket
| CloseWebSocket
| SubscribeToOrderbook (instrument : string)
| UnsubscribeFromOrderbook (instrument : string)
| GetOrderbook (instrument : string)
| OrderbookCallback (orderbook : Orderbook.t).

(** [orderbook_callback_] records whether the [std::function] holds a
    target; calling it is the [OrderbookCallback] event. *)
Record t : Type := mk {
  running_ : bool;
  subscriptions_ : list string;
  orderbooks_ : gmap string Orderbook.t;
  orderbook_callback_ : bool
}.

Definition init : t :=
  {| running_ := false; subscriptions_ := []; orderbooks_ := ∅;
     orderbook_callback_ := false |}.

Definition with_running (b : bool) (md : t) : t :=
  {| running_ := b; subscriptions_ := subscriptions_ md;
     orderbooks_ := orderbooks_ md;
     orderbook_callback_ := orderbook_callback_ md |}.

Definition with_subscriptions (subs : list string) (md : t) : t :=
  {| running_ := running_ md; subscriptions_ := subs;
     orderbooks_ := orderbooks_ md;
     orderbook_callback_ := orderbook_callback_ md |}.

Definition with_orderbooks (books : gmap string Orderbook.t) (md : t) : t :=
  {| running_ := running_ md; subscriptions_ := subscriptions_ md;
     orderbooks_ := books;
     orderbook_callback_ := orderbook_callback_ md |}.

Definition setOrderbookCallback (md : t) : t :=
  {| running_ := running_ md; subscriptions_ := subscriptions_ md;
     orderbooks_ := orderbooks_ md; orderbook_callback_ := true |}.

(** The loop over the entries of a "bids" or "asks" member: an entry that
    is an array of at least two elements becomes a level, its first two
    elements converted to [double]; any other entry is passed over. *)
Fixpoint collect_levels (entries : list json) (levels : list Orderbook.Level)
    : throws (list Orderbook.Level) :=
  match entries with
  | [] => Ok levels
  | entry :: rest =>
      if (is_array entry && (2 <=? Json.size entry)%nat)%bool then
        price ← const_index entry 0 ≫= get_double;
        size ← const_index entry 1 ≫= get_double;
        collect_levels rest
          (levels ++ [{| Orderbook.price := price; Orderbook.size := size |}])
      else collect_levels rest levels
  end.

Definition read_levels (book_data : json) (key : string)
    : throws (list Orderbook.Level) :=
  if contains book_data key then
    entries ← subscript book_data key;
    collect_levels (items entries) []
  else Ok [].

(** Store a book and notify the callback, if one is registered. *)
Definition publish (orderbook : Orderbook.t) (md : t) : t * list event :=
  (with_orderbooks
     (<[Orderbook.instrument orderbook := orderbook]> (orderbooks_ md)) md,
   if orderbook_callback_ md then [OrderbookCallback orderbook] else []).

(** The guard of [processMessage]: a "subscription" notification whose
    "params" carry a "channel". *)
Definition is_channel_message (data : json) : throws bool :=
  if contains data "method" then
    method ← subscript data "method";
    if eqb_string method "subscription" then
      if contains data "params" then
        params ← subscript data "params";
        mret (contains params "channel")
      else mret false
    else mret false
  else mret false.

(** The instrument named by a channel [book.<instrument>.<...>]: what
    follows the five-character prefix, cut at its first dot if it has one. *)
Definition channel_instrument (channel : string) : string :=
  let instrument := substr_from channel 5 in
  match find instrument "." with
  | Some first_dot => String.substring 0 first_dot instrument
  | None => instrument
  end.

(** The [try] block of [processMessage]. *)
Definition ingest (now : Z) (data : json) (md : t) : throws (t * list event) :=
  is_update ← is_channel_message data;
  if is_update : bool then
    params ← subscript data "params";
    channel ← subscript params "channel" ≫= get_string;
    if bool_decide (find channel "book." = Some 0%nat) then
      let instrument := channel_instrument channel in
      orderbook_data ← subscript params "data";
      bids ← read_levels orderbook_data "bids";
      asks ← read_levels orderbook_data "asks";
      mret (publish
              {| Orderbook.instrument := instrument;
                 Orderbook.bids := bids;
                 Orderbook.asks := asks;
                 Orderbook.timestamp := now |} md)
    else mret (md, [])
  else mret (md, []).

(** [processMessage]: [now] is the clock reading taken when the book object
    is built.  Returns the new client state, the events, and the exception
    the [catch] block logged, if any. *)
Definition processMessage (now : Z) (message : option json) (md : t)
    : t * list event * option exception :=
  match message with
  | None => (md, [], Some parse_error)
  | Some data =>
      match ingest now data md with
      | Ok (md', events) => (md', events, None)
      | Throw e => (md, [], Some e)
      end
  end.

(** [fetchInitialOrderbook]: [response] is the parsed reply of the
    snapshot request. *)
Definition fetchInitialOrderbook (now : Z) (response : option json)
    (instrument : string) (md : t) : t * list event * option exception :=
  match response with
  | None => (md, [GetOrderbook instrument], Some parse_error)
  | Some data =>
      if contains data "result" then
        match
          result ← subscript data "result";
          bids ← read_levels result "bids";
          asks ← read_levels result "asks";
          mret (publish
                  {| Orderbook.instrument := instrument;
                     Orderbook.bids := bids;
                     Orderbook.asks := asks;
                     Orderbook.timestamp := now |} md)
        with
        | Ok (md', events) => (md', GetOrderbook instrument :: events, None)
        | Throw e => (md, [GetOrderbook instrument], Some e)
        end
      else (md, [GetOrderbook instrument], None)
  end.

Definition start (md : t) : t * list event :=
  if running_ md then (md, [])
  else (with_running true md,
        ConnectWebSocket :: (SubscribeToOrderbook <$> subscriptions_ md)).

Definition stop (md : t) : t * list event :=
  if running_ md then
    (with_running false md,
     (UnsubscribeFromOrderbook <$> subscriptions_ md) ++ [CloseWebSocket])
  else (md, []).

Definition subscribe (now : Z) (response : option json) (instrument : string)
    (md : t) : t * list event * option exception :=
  if bool_decide (instrument ∈ subscriptions_ md) then (md, [], None)
  else
    let md := with_subscriptions (subscriptions_ md ++ [instrument]) md in
    if running_ md then
      let '(md', events, caught) :=
        fetchInitialOrderbook now response instrument md in
      (md', events ++ [SubscribeToOrderbook instrument], caught)
    else (md, [], None).

(** [v.erase(std::find(v.begin(), v.end(), x))] for an [x] that occurs. *)
Fixpoint erase_first (x : string) (v : list string) : list string :=
  match v with
  | [] => []
  | y :: rest => if String.eqb y x then rest else y :: erase_first x rest
  end.

Definition unsubscribe (instrument : string) (md : t) : t * list event :=
  if bool_decide (instrument ∈ subscriptions_ md) then
    let md := with_subscriptions (erase_first instrument (subscriptions_ md)) md in
    if running_ md then
      (with_orderbooks (delete instrument (orderbooks_ md)) md,
       [UnsubscribeFromOrderbook instrument])
    else (md, [])
  else (md, []).

Definition getSubscribedInstruments (md : t) : list string := subscriptions_ md.

(** [getOrderbook]: a const member, so the client is returned as it was
    given.  [junk] stands for the [timestamp] member of the local
    [Orderbook empty;], which the code never sets. *)
Definition getOrderbook (junk : Z) (instrument : string) (md : t)
    : throws Orderbook.t * t :=
  if bool_decide (is_Some (orderbooks_ md !! instrument)) then
    (match orderbooks_ md !! instrument with   (* orderbooks_.at(instrument) *)
     | Some book => Ok book
     | None => Throw out_of_range
     end, md)
  else
    (Ok {| Orderbook.instrument := instrument;
           Orderbook.bids := [];
           Orderbook.asks := [];
           Orderbook.timestamp := junk |}, md).

(** The wire form of a price level, and a streaming notification on
    [channel] whose "data" member lists the given bid and ask levels (the
    documents may hold other members besides the ones named). *)
Definition level_json (level : Orderbook.Level) : json :=
  JArray [JNumber (Orderbook.price level); JNumber (Orderbook.size level)].

Definition book_notification (data : json) (channel : string)
    (bids asks : list Orderbook.Level) : Prop :=
  ∃ members params book : list (string * json),
    data = JObject members
    ∧ assoc "method" members = Some (JString "subscription")
    ∧ assoc "params" members = Some (JObject params)
    ∧ assoc "channel" params = Some (JString channel)
    ∧ assoc "data" params = Some (JObject book)
    ∧ assoc "bids" book = Some (JArray (level_json <$> bids))
    ∧ assoc "asks" book = Some (JArray (level_json <$> asks)).

(** A cached book without its ingestion timestamp, and the client state
    with every book so stripped. *)
Definition without_timestamp (book : Orderbook.t)
    : string * list Orderbook.Level * list Orderbook.Level :=
  (Orderbook.instrument book, Orderbook.bids book, Orderbook.asks book).

Definition contents (md : t)
    : bool * list string
      * gmap string (string * list Orderbook.Level * list Orderbook.Level)
      * bool :=
  (running_ md, subscriptions_ md, without_timestamp <$> orderbooks_ md,
   orderbook_callback_ md).

End MarketDataClient.

(** ** Subscription broker (include/websocket_server.h, src/websocket_server.cpp) *)

(** The double-quote character of the JSON texts the broker sends. *)
Definition dq : string := String "034"%char EmptyString.

(** The order in which a range-[for] visits a [std::set<std::string>]. *)
Definition in_order (s : gset string) : list string :=
  merge_sort String.le (elements s).

Module WebSocketConnection.

(** A [std::shared_ptr<WebSocketConnection>]: the connection object it
    points to and the id that object reports. *)
Record Pointer : Type := mk {
  object : positive;
  getId : string
}.

End WebSocketConnection.

Module WebSocketServer.

Import WebSocketConnection.

Inductive event : Type :=
| Send (client : Pointer) (message : string)
| Close (client : Pointer).

Record t : Type := mk {
  clients_ : gmap string Pointer;
  client_subscriptions_ : gmap string (gset string);
  instrument_subscribers_ : gmap string (gset string)
}.

Definition init : t :=
  {| clients_ := ∅; client_subscriptions_ := ∅; instrument_subscribers_ := ∅ |}.

Definition with_clients (clients : gmap string Pointer) (ws : t) : t :=
  {| clients_ := clients;
     client_subscriptions_ := client_subscriptions_ ws;
     instrument_subscribers_ := instrument_subscribers_ ws |}.

Definition with_indexes (by_client by_instrument : gmap string (gset string))
    (ws : t) : t :=
  {| clients_ := clients_ ws;
     client_subscriptions_ := by_client;
     instrument_subscribers_ := by_instrument |}.

Definition subscription_message (instrument status : string) : string :=
  "{" +:+ dq +:+ "type" +:+ dq +:+ ":" +:+ dq +:+ "subscription" +:+ dq +:+ ","
  +:+ dq +:+ "instrument" +:+ dq +:+ ":" +:+ dq +:+ instrument +:+ dq +:+ ","
  +:+ dq +:+ "status" +:+ dq +:+ ":" +:+ dq +:+ status +:+ dq +:+ "}".

Definition welcome_message : string :=
  "{" +:+ dq +:+ "type" +:+ dq +:+ ":" +:+ dq +:+ "welcome" +:+ dq +:+ ","
  +:+ dq +:+ "message" +:+ dq +:+ ":" +:+ dq
  +:+ "Welcome to Deribit Trader WebSocket Server" +:+ dq +:+ "}".

Definition addSubscription (client : Pointer) (instrument : string) (ws : t)
    : t * list event :=
  let client_id := getId client in
  let by_client :=
    <[client_id :=
        default ∅ (client_subscriptions_ ws !! client_id) ∪ {[instrument]}]>
      (client_subscriptions_ ws) in
  let by_instrument :=
    <[instrument :=
        default ∅ (instrument_subscribers_ ws !! instrument) ∪ {[client_id]}]>
      (instrument_subscribers_ ws) in
  (with_indexes by_client by_instrument ws,
   [Send client (subscription_message instrument "subscribed")]).

(** Take [client_id] out of the subscriber set of [instrument], dropping the
    entry when the set becomes empty; nothing happens without an entry. *)
Definition erase_subscriber (client_id instrument : string)
    (by_instrument : gmap string (gset string)) : gmap string (gset string) :=
  match by_instrument !! instrument with
  | Some ids =>
      let ids := ids ∖ {[client_id]} in
      if decide (ids = ∅) then delete instrument by_instrument
      else <[instrument := ids]> by_instrument
  | None => by_instrument
  end.

Definition removeSubscription (client : Pointer) (instrument : string) (ws : t)
    : t * list event :=
  let client_id := getId client in
  let by_client :=
    match client_subscriptions_ ws !! client_id with
    | Some instruments =>
        <[client_id := instruments ∖ {[instrument]}]> (client_subscriptions_ ws)
    | None => client_subscriptions_ ws
    end in
  (with_indexes by_client
     (erase_subscriber client_id instrument (instrument_subscribers_ ws)) ws,
   [Send client (subscription_message instrument "unsubscribed")]).

Definition removeAllSubscriptions (client : Pointer) (ws : t) : t :=
  let client_id := getId client in
  let instruments := default ∅ (client_subscriptions_ ws !! client_id) in
  with_indexes
    (delete client_id (client_subscriptions_ ws))
    (foldl (fun by_instrument instrument =>
              erase_subscriber client_id instrument by_instrument)
       (instrument_subscribers_ ws) (in_order instruments))
    ws.

Definition getSubscriptions (client : Pointer) (ws : t) : gset string :=
  default ∅ (client_subscriptions_ ws !! getId client).

(** [broadcastToSubscribers] has two critical sections.  The first, under
    [subscriptions_mutex_], copies the ids subscribed to the instrument. *)
Definition subscriber_ids (instrument : string) (ws : t) : list string :=
  match instrument_subscribers_ ws !! instrument with
  | Some ids => in_order ids
  | None => []
  end.

(** The second, under [clients_mutex_], keeps the connection of every id
    that has an entry in the connection table. *)
Definition resolve_clients (client_ids : list string) (ws : t) : list Pointer :=
  omap (fun client_id => clients_ ws !! client_id) client_ids.

(** Then one send to each connection kept.  No member of the server is
    written. *)
Definition broadcastToSubscribers (instrument message : string) (ws : t)
    : t * list event :=
  let client_ids := subscriber_ids instrument ws in
  let clients := resolve_clients client_ids ws in
  (ws, (fun client => Send client message) <$> clients).

Definition broadcastOrderbook (instrument orderbook_json : string) (ws : t)
    : t * list event :=
  broadcastToSubscribers instrument orderbook_json ws.

Definition broadcastToAll (message : string) (ws : t) : t * list event :=
  let clients := resolve_clients (in_order (dom (clients_ ws))) ws in
  (ws, (fun client => Send client message) <$> clients).

Definition onAccept (connection : Pointer) (ws : t) : t * list event :=
  (with_clients (<[getId connection := connection]> (clients_ ws)) ws,
   [Send connection welcome_message]).

Definition onClose (connection : Pointer) (ws : t) : t :=
  let ws := removeAllSubscriptions connection ws in
  with_clients (delete (getId connection) (clients_ ws)) ws.

(** The three subscription calls of the public interface, and a run of
    them from a given broker state. *)
Inductive call : Type :=
| AddSubscription (client : Pointer) (instrument : string)
| RemoveSubscription (client : Pointer) (instrument : string)
| RemoveAllSubscriptions (client : Pointer).

Definition step (ws : t) (c : call) : t :=
  match c with
  | AddSubscription client instrument => (addSubscription client instrument ws).1
  | RemoveSubscription client instrument =>
      (removeSubscription client instrument ws).1
  | RemoveAllSubscriptions client => removeAllSubscriptions client ws
  end.

Definition run (calls : list call) (ws : t) : t := foldl step ws calls.

(** The two indexes hold the same pairs. *)
Definition indexes_agree (ws : t) : Prop :=
  ∀ client_id instrument : string,
    instrument ∈ default ∅ (client_subscriptions_ ws !! client_id)
    ↔ client_id ∈ default ∅ (instrument_subscribers_ ws !! instrument).

(** Every entry of the connection table is filed under the id of the
    connection it holds. *)
Definition clients_keyed (ws : t) : Prop :=
  ∀ (client_id : string) (client : Pointer),
    clients_ ws !! client_id = Some client → getId client = client_id.

End WebSocketServer.

(** ** Order queries (src/order_manager.cpp, getAllOrders and getOpenOrders) *)

Module OrderQueries.

Import OrderManager.

(** The mapped values of a [std::map], in the order a range-[for] visits
    its entries. *)
Definition in_key_order {A : Type} (m : gmap string A) : list A :=
  omap (fun key => m !! key) (in_order (dom m)).

(** The comparator both queries hand to [std::sort]:
    [a.creation_timestamp > b.creation_timestamp]. *)
Definition newer (a b : Order.t) : bool :=
  Order.creation_timestamp b <? Order.creation_timestamp a.

(** What [std::sort] promises for a comparator: the result rearranges the
    input, and no element is ordered by the comparator before one that
    precedes it.  The order of elements the comparator does not separate is
    left to the implementation, so the queries take the sort as given. *)
Definition sorts_with {A : Type} (comp : A → A → bool)
    (std_sort : list A → list A) : Prop :=
  ∀ l : list A,
    std_sort l ≡ₚ l
    ∧ StronglySorted (fun a b => comp b a = false) (std_sort l).

(** The status test of [getOpenOrders]. *)
Definition is_open (o : Order.t) : bool :=
  match Order.status o with
  | Order.OPEN | Order.PARTIALLY_FILLED => true
  | _ => false
  end.

Definition getAllOrders (std_sort : list Order.t → list Order.t)
    (om : OrderManager.t) : list Order.t :=
  std_sort (in_key_order (orders_ om)).

Definition getOpenOrders (std_sort : list Order.t → list Order.t)
    (om : OrderManager.t) : list Order.t :=
  std_sort (List.filter is_open (in_key_order (orders_ om))).

(** One sort that keeps the promise: merge sort, newest first. *)
Definition newest_first (a b : Order.t) : Prop :=
  Order.creation_timestamp b ≤ Order.creation_timestamp a.

#[global] Instance newest_first_dec : RelDecision newest_first :=
  fun a b => Z_le_dec (Order.creation_timestamp b) (Order.creation_timestamp a).

Definition merge_sort_newest_first (l : list Order.t) : list Order.t :=
  merge_sort newest_first l.

(** Every recorded order is filed under its own id. *)
Definition orders_keyed (om : OrderManager.t) : Prop :=
  ∀ (order_id : string) (o : Order.t),
    orders_ om !! order_id = Some o → Order.order_id o = order_id.

(** No recorded order is in the PENDING state. *)
Definition none_pending (om : OrderManager.t) : Prop :=
  ∀ (order_id : string) (o : Order.t),
    orders_ om !! order_id = Some o → Order.status o ≠ Order.PENDING.

End OrderQueries.

(** ** Channel names of the API client (src/api_client.cpp) *)

Module ApiClient.

(** The line-feed character of the request texts. *)
Definition nl : string := String "010"%char EmptyString.

(** The channel named between the quotes of the "channels" array in
    [subscribeToOrderbook] and [unsubscribeFromOrderbook]. *)
Definition orderbook_channel (instrument : string) : string :=
  "book." +:+ instrument +:+ ".none.10.100ms".

(** The text a channel request writes to the exchange socket. *)
Definition channel_request (id method instrument : string) : string :=
  "{" +:+ nl
  +:+ "  " +:+ dq +:+ "jsonrpc" +:+ dq +:+ ": " +:+ dq +:+ "2.0" +:+ dq +:+ "," +:+ nl
  +:+ "  " +:+ dq +:+ "id" +:+ dq +:+ ": " +:+ id +:+ "," +:+ nl
  +:+ "  " +:+ dq +:+ "method" +:+ dq +:+ ": " +:+ dq +:+ method +:+ dq +:+ "," +:+ nl
  +:+ "  " +:+ dq +:+ "params" +:+ dq +:+ ": {" +:+ nl
  +:+ "    " +:+ dq +:+ "channels" +:+ dq +:+ ": ["
  +:+ dq +:+ orderbook_channel instrument +:+ dq +:+ "]" +:+ nl
  +:+ "  }" +:+ nl
  +:+ "}".

(** [subscribeToOrderbook] and [unsubscribeFromOrderbook]: the text written
    when a socket implementation exists ([connected]), nothing otherwise. *)
Definition subscribeToOrderbook (connected : bool) (instrument : string)
    : option string :=
  if connected then Some (channel_request "3600" "public/subscribe" instrument)
  else None.

Definition unsubscribeFromOrderbook (connected : bool) (instrument : string)
    : option string :=
  if connected then Some (channel_request "8691" "public/unsubscribe" instrument)
  else None.

End ApiClient.

(** ** Runs of the order-book cache *)

Module MarketDataRun.

Import MarketDataClient.

(** The calls that reach a [MarketDataClient], with the clock reading and
    the parsed snapshot reply or message each one meets. *)
Inductive call : Type :=
| Start
| Stop
| Subscribe (now : Z) (response : option json) (instrument : string)
| Unsubscribe (instrument : string)
| SetOrderbookCallback
| ProcessMessage (now : Z) (message : option json).

Definition step (md : MarketDataClient.t) (c : call) : MarketDataClient.t :=
  match c with
  | Start => (start md).1
  | Stop => (stop md).1
  | Subscribe now response instrument =>
      (subscribe now response instrument md).1.1
  | Unsubscribe instrument => (unsubscribe instrument md).1
  | SetOrderbookCallback => setOrderbookCallback md
  | ProcessMessage now message => (processMessage now message md).1.1
  end.

Definition run (calls : list call) (md : MarketDataClient.t)
    : MarketDataClient.t :=
  foldl step md calls.

(** An entry of a "bids" or "asks" array: one the level loop passes over
    (not an array, or an array of fewer than two elements), or an array that
    starts with a numeric price and size and may go on. *)
Inductive entry : Type :=
| Skipped (j : json)
| Priced (level : Orderbook.Level) (more : list json).

Definition entry_json (e : entry) : json :=
  match e with
  | Skipped j => j
  | Priced level more =>
      JArray (JNumber (Orderbook.price level)
              :: JNumber (Orderbook.size level) :: more)
  end.

Definition entry_level (e : entry) : option Orderbook.Level :=
  match e with
  | Skipped _ => None
  | Priced level _ => Some level
  end.

Definition passed_over (j : json) : Prop :=
  (is_array j && (2 <=? Json.size j)%nat)%bool = false.

(** How a call of the update callback ends: it returns, it throws an
    exception derived from [std::exception], or it throws anything else. *)
Inductive callback_end : Type :=
| Returns
| ThrowsException
| ThrowsOther.

(** What the [catch] block of [processMessage] can log: an exception of
    the decoding, or the exception the update callback threw. *)
Inductive logged : Type :=
| Decoding (e : exception)
| FromCallback.

(** How [processMessage] ends: it returns having logged nothing, it
    returns having logged in its [catch] block, or what the callback threw
    is not a [std::exception] and leaves [processMessage] uncaught. *)
Inductive ending : Type :=
| Quiet
| Logged (l : logged)
| Escaped.

(** [processMessage] with a callback that may throw.  The callback is
    called inside the [try] block, after the book has been stored, so
    whatever it throws finds the store already done; the [catch] block
    takes [const std::exception&] only.  With a callback that returns
    this is [processMessage]. *)
Definition processMessage_callback (callback : callback_end) (now : Z)
    (message : option json) (md : MarketDataClient.t)
    : MarketDataClient.t * list event * ending :=
  match message with
  | None => (md, [], Logged (Decoding parse_error))
  | Some data =>
      match ingest now data md with
      | Ok (md', events) =>
          (md', events,
           match events with
           | [] => Quiet
           | _ :: _ =>
               match callback with
               | Returns => Quiet
               | ThrowsException => Logged FromCallback
               | ThrowsOther => Escaped
               end
           end)
      | Throw e => (md, [], Logged (Decoding e))
      end
  end.

End MarketDataRun.

(** ** Connection handlers of the broker (src/websocket_server.cpp) *)

Module WebSocketHandlers.

Import WebSocketConnection WebSocketServer.

(** [s.find(pattern, pos)]. *)
Definition find_from (s pattern : string) (pos : nat) : option nat :=
  String.index pos pattern s.

(** The alphabet of [generateRandomId] and the character [hex[d]]. *)
Definition hex : string := "0123456789abcdef".

Definition hex_at (d : nat) : ascii :=
  default "000"%char (String.get d hex).

(** [generateRandomId]: sixteen characters, the i-th picked by the i-th
    value [dis i] that the uniform distribution on 0..15 yields. *)
Definition generateRandomId (dis : nat → nat) : string :=
  string_of_list_ascii ((fun i => hex_at (dis i)) <$> seq 0 16).

(** The texts [handleMessage] searches for. *)
Definition type_pattern (command : string) : string :=
  dq +:+ "type" +:+ dq +:+ ":" +:+ dq +:+ command +:+ dq.

Definition instrument_pattern : string :=
  dq +:+ "instrument" +:+ dq +:+ ":".

Definition error_message : string :=
  "{" +:+ dq +:+ "type" +:+ dq +:+ ":" +:+ dq +:+ "error" +:+ dq +:+ ","
  +:+ dq +:+ "message" +:+ dq +:+ ":" +:+ dq +:+ "Unknown command" +:+ dq +:+ "}".

(** The instrument extraction both command branches perform: skip the 13
    characters of the pattern, take what lies between the character after
    that and the next double quote. *)
Definition extract_instrument (message : string) : option string :=
  match find message instrument_pattern with
  | Some pos =>
      let pos := (pos + 13)%nat in
      match find_from message dq (pos + 1) with
      | Some end_ =>
          Some (String.substring (pos + 1) (end_ - pos - 1) message)
      | None => None
      end
  | None => None
  end.

(** [handleMessage].  Neither the searches nor the [substr] (whose start
    never exceeds the message length) can throw, so the [catch] block is
    never entered. *)
Definition handleMessage (connection : Pointer) (message : string) (ws : t)
    : t * list event :=
  if bool_decide (is_Some (find message (type_pattern "subscribe"))) then
    match extract_instrument message with
    | Some instrument => addSubscription connection instrument ws
    | None => (ws, [])
    end
  else if bool_decide (is_Some (find message (type_pattern "unsubscribe"))) then
    match extract_instrument message with
    | Some instrument => removeSubscription connection instrument ws
    | None => (ws, [])
    end
  else (ws, [Send connection error_message]).

Definition onMessage (connection : Pointer) (message : string) (ws : t)
    : t * list event :=
  handleMessage connection message ws.

(** The command text of the downstream protocol, written without white
    space: everything up to the colon of the "instrument" member, the quoted
    instrument, the closing brace. *)
Definition command_open (command : string) : string :=
  "{" +:+ type_pattern command +:+ "," +:+ instrument_pattern.

Definition command_text (command instrument : string) : string :=
  command_open command +:+ dq +:+ instrument +:+ dq +:+ "}".

(** The same text with one space after that colon. *)
Definition spaced_command_text (command instrument : string) : string :=
  command_open command +:+ " " +:+ dq +:+ instrument +:+ dq +:+ "}".

(** Everything that reaches the broker: the three handlers the listener
    calls and the subscription calls of the public interface. *)
Inductive call : Type :=
| OnAccept (connection : Pointer)
| OnMessage (connection : Pointer) (message : string)
| OnClose (connection : Pointer)
| Subscription (c : WebSocketServer.call).

Definition step (ws : t) (c : call) : t :=
  match c with
  | OnAccept connection => (onAccept connection ws).1
  | OnMessage connection message => (onMessage connection message ws).1
  | OnClose connection => onClose connection ws
  | Subscription c => WebSocketServer.step ws c
  end.

Definition run (calls : list call) (ws : t) : t := foldl step ws calls.

(** No instrument keeps an empty subscriber set. *)
Definition no_empty_entry (ws : t) : Prop :=
  ∀ (instrument : string) (ids : gset string),
    instrument_subscribers_ ws !! instrument = Some ids → ids ≠ ∅.

End WebSocketHandlers.

(** An array element that [onPositionUpdate] cannot read, with defined
    behaviour: it is not an object, or its "instrument_name" member is not a
    string, or that member is a string and its "size" member is not a
    number. *)
Definition ill_typed_position (position : json) : Prop :=
  match position with
  | JObject members =>
      match assoc "instrument_name" members with
      | Some (JString _) =>
          match assoc "size" members with
          | Some (JNumber _) | None => False
          | Some _ => True
          end
      | Some _ => True
      | None => False
      end
  | _ => True
  end.

(** What every broker state reached from a new one satisfies. *)
Definition broker_invariant (ws : WebSocketServer.t) : Prop :=
  WebSocketServer.indexes_agree ws
  ∧ WebSocketServer.clients_keyed ws
  ∧ WebSocketHandlers.no_empty_entry ws.

(** * Properties *)

(** ** Order registry *)

Section order_registry.

Import OrderManager.

Lemma getOrder_known (junk o : Order.t) (order_id : string) (om : OrderManager.t) :
  orders_ om !! order_id = Some o → getOrder junk order_id om = Ok o.
Proof.
  intros Hknown. unfold getOrder.
  rewrite bool_decide_eq_true_2 by (rewrite Hknown; eauto).
  by rewrite Hknown.
Qed.

(** C5. For every instrument, side, price, amount and type, [placeOrder]
    issues exactly one placement call on the API client, names the order
    after the clock reading, records it and returns that id; [getOrder] on
    the returned id then succeeds at once and yields an order with status
    OPEN, the requested instrument, side, type, price and amount, and filled
    amount 0.0. *)
Theorem placeOrder_retrievable (t_id t_created : Z) (instrument : string)
    (side : Order.Side) (price amount : float) (type : Order.Type_)
    (om : OrderManager.t) (junk : Order.t) :
  ∃ (order_id : string) (om' : OrderManager.t) (o : Order.t),
    placeOrder t_id t_created instrument side price amount type om
      = (order_id, om',
         [ApiPlaceOrder instrument
            (match side with Order.BUY => true | Order.SELL => false end)
            price amount
            (match type with
             | Order.LIMIT => "limit"
             | Order.MARKET => "market"
             end)])
    ∧ order_id = "order_" +:+ to_string t_id
    ∧ orders_ om' !! order_id = Some o
    ∧ (∀ other, other ≠ order_id → orders_ om' !! other = orders_ om !! other)
    ∧ positions_ om' = positions_ om
    ∧ getOrder junk order_id om' = Ok o
    ∧ Order.order_id o = order_id
    ∧ Order.instrument o = instrument
    ∧ Order.side o = side
    ∧ Order.type o = type
    ∧ Order.status o = Order.OPEN
    ∧ Order.price o = price
    ∧ Order.amount o = amount
    ∧ Order.filled_amount o = 0%float.
Proof.
  unfold placeOrder. eexists _, _, _.
  split; [reflexivity|]. split; [reflexivity|].
  split; [apply lookup_insert_eq|].
  split.
  { intros other Hother. cbn. by rewrite lookup_insert_ne. }
  split; [reflexivity|].
  split.
  { apply getOrder_known. apply lookup_insert_eq. }
  repeat split.
Qed.

Lemma apply_status_frame (data : json) (status : string) (filled : float)
    (order : Order.t) :
  let order' := (apply_status data status filled order).1 in
  Order.order_id order' = Order.order_id order
  ∧ Order.instrument order' = Order.instrument order
  ∧ Order.side order' = Order.side order
  ∧ Order.type order' = Order.type order
  ∧ Order.price order' = Order.price order
  ∧ Order.amount order' = Order.amount order
  ∧ Order.filled_amount order' = Order.filled_amount order
  ∧ Order.creation_timestamp order' = Order.creation_timestamp order
  ∧ Order.last_update_timestamp order' = Order.last_update_timestamp order.
Proof.
  unfold apply_status.
  repeat (case_match; simpl; try done).
Qed.

(** What one call can do to the timestamps of a recorded order: leave the
    order alone, record it anew, or touch an existing one at a reading the
    call was given. *)
Lemma step_stamps (om : OrderManager.t) (c : call) (order_id : string)
    (o' : Order.t) :
  orders_ (step om c) !! order_id = Some o' →
  orders_ om !! order_id = Some o'
  ∨ (Order.creation_timestamp o' = Order.last_update_timestamp o'
     ∧ Order.last_update_timestamp o' ∈ readings c)
  ∨ (∃ o, orders_ om !! order_id = Some o
          ∧ Order.creation_timestamp o' = Order.creation_timestamp o
          ∧ Order.last_update_timestamp o' ∈ readings c).
Proof.
  destruct c as [t_id t_created instrument side price amount type
                |success now id|success now id new_price new_amount
                |now order_data|position_data]; simpl.
  - destruct (decide ("order_" +:+ to_string t_id = order_id)) as [<-|Hne].
    + rewrite lookup_insert_eq. intros [= <-]. right; left. simpl.
      split; [done|set_solver].
    + rewrite lookup_insert_ne by done. auto.
  - destruct success; [|auto].
    destruct (orders_ om !! id) as [o|] eqn:Hid; [|auto]. simpl.
    destruct (decide (id = order_id)) as [<-|Hne].
    + rewrite lookup_insert_eq. intros [= <-]. right; right.
      exists o. simpl. split; [done|]. split; [done|set_solver].
    + rewrite lookup_insert_ne by done. auto.
  - destruct success; [|auto].
    destruct (orders_ om !! id) as [o|] eqn:Hid; [|auto]. simpl.
    destruct (decide (id = order_id)) as [<-|Hne].
    + rewrite lookup_insert_eq. intros [= <-]. right; right.
      exists o. simpl. split; [done|]. split; [done|set_solver].
    + rewrite lookup_insert_ne by done. auto.
  - unfold onOrderUpdate.
    destruct order_data as [data|]; [|auto].
    destruct (decode_order_update data) as [[[id status] filled]|e]; [|auto].
    destruct (orders_ om !! id) as [o|] eqn:Hid; [|auto].
    pose proof (apply_status_frame data status filled
                  (Order.set_last_update_timestamp now
                     (Order.set_filled_amount filled o))) as Hframe.
    destruct (apply_status data status filled _) as [order caught].
    simpl in Hframe. destruct Hframe as (_&_&_&_&_&_&_&Hcreated&Hupdated).
    simpl.
    destruct (decide (id = order_id)) as [<-|Hne].
    + rewrite lookup_insert_eq. intros [= <-]. right; right.
      exists o. split; [done|]. split; [done|]. rewrite Hupdated. set_solver.
    + rewrite lookup_insert_ne by done. auto.
  - unfold onPositionUpdate.
    destruct position_data as [data|]; [|auto].
    destruct (is_array data); [|auto].
    destruct (populate _ _). auto.
Qed.

Lemma run_snoc (calls : list call) (c : call) (om : OrderManager.t) :
  run (calls ++ [c]) om = step (run calls om) c.
Proof. unfold run. by rewrite foldl_snoc. Qed.

Lemma clock_readings_snoc (calls : list call) (c : call) :
  clock_readings (calls ++ [c]) = clock_readings calls ++ readings c.
Proof.
  unfold clock_readings. rewrite fmap_app, concat_app. simpl.
  by rewrite app_nil_r.
Qed.

(** Under a clock that never runs backwards, every order of a registry
    that started empty has its update time at or after its creation time. *)
Lemma run_stamped (calls : list call) :
  StronglySorted Z.le (clock_readings calls) →
  stamped_within (clock_readings calls) (run calls OrderManager.init).
Proof.
  induction calls as [|c calls IH] using rev_ind; intros Hsorted.
  - intros order_id o. simpl. by rewrite lookup_empty.
  - rewrite clock_readings_snoc in *. rewrite run_snoc.
    apply StronglySorted_app in Hsorted as (Hle & Hprev & Hnew).
    specialize (IH Hprev).
    intros order_id o' Hstep.
    apply step_stamps in Hstep as [Hsame|[[Heq Hin]|(o & Hold & Hcreated & Hin)]].
    + destruct (IH _ _ Hsame) as [? ?]. split; [done|set_solver].
    + split; [lia|set_solver].
    + destruct (IH _ _ Hold) as [Hord Hseen]. split; [|set_solver].
      rewrite Hcreated. pose proof (Hle _ _ Hseen Hin). lia.
Qed.

(** C3, amended.  If the exchange cancel call succeeds for a recorded
    order, [cancelOrder] returns true and leaves that order with status
    CANCELLED and with the clock reading taken at the cancel as its update
    time; nothing is asked of the prior status or fill, and the fill, price,
    amount and the other members stay as they were.  The new update time
    is at or after the creation time exactly when that reading is not
    earlier than the creation time; in a registry reached from the empty one
    this is so, and the update time does not go back either, whenever the
    clock readings of the run never decrease. *)
Theorem cancelOrder_cancels (now : Z) (order_id : string) (o : Order.t)
    (om : OrderManager.t) :
  orders_ om !! order_id = Some o →
  ∃ (om' : OrderManager.t) (o' : Order.t),
    cancelOrder true now order_id om = (true, om', [ApiCancelOrder order_id])
    ∧ orders_ om' !! order_id = Some o'
    ∧ Order.status o' = Order.CANCELLED
    ∧ Order.last_update_timestamp o' = now
    ∧ Order.creation_timestamp o' = Order.creation_timestamp o
    ∧ Order.filled_amount o' = Order.filled_amount o
    ∧ Order.price o' = Order.price o
    ∧ Order.amount o' = Order.amount o
    ∧ Order.instrument o' = Order.instrument o
    ∧ Order.side o' = Order.side o
    ∧ Order.type o' = Order.type o
    ∧ (Order.creation_timestamp o' ≤ Order.last_update_timestamp o'
       ↔ Order.creation_timestamp o ≤ now)
    ∧ (∀ calls,
         om = run calls OrderManager.init →
         StronglySorted Z.le (clock_readings calls ++ [now]) →
         Order.creation_timestamp o' ≤ Order.last_update_timestamp o'
         ∧ Order.last_update_timestamp o ≤ Order.last_update_timestamp o').
Proof.
  intros Hknown. unfold cancelOrder. rewrite Hknown.
  eexists _, _. split; [reflexivity|].
  split; [apply lookup_insert_eq|].
  simpl. split_and!; try done.
  intros calls -> Hsorted.
  apply StronglySorted_app in Hsorted as (Hle & Hprev & _).
  destruct (run_stamped calls Hprev order_id o Hknown) as [Hord Hseen].
  assert (Order.last_update_timestamp o ≤ now) as Hnow.
  { apply Hle; [done|set_solver]. }
  lia.
Qed.

(** A run for the amended C3: an order is placed, reported fully filled by
    the exchange, and then cancelled, the clock never going back. *)
Lemma cancelOrder_cancels_witness :
  let calls :=
    [PlaceOrder 100 101 "BTC-PERPETUAL" Order.BUY 50000 2 Order.LIMIT;
     OnOrderUpdate 105
       (Some (JObject [("filled_amount", JNumber 2);
                       ("order_id", JString "order_100");
                       ("state", JString "filled")]))] in
  ∃ o, orders_ (run calls OrderManager.init) !! "order_100" = Some o
       ∧ Order.status o = Order.FILLED
       ∧ Order.filled_amount o = 2%float
       ∧ ∃ om' o',
           cancelOrder true 110 "order_100" (run calls OrderManager.init)
             = (true, om', [ApiCancelOrder "order_100"])
           ∧ orders_ om' !! "order_100" = Some o'
           ∧ Order.status o' = Order.CANCELLED
           ∧ Order.last_update_timestamp o' = 110
           ∧ Order.creation_timestamp o' ≤ Order.last_update_timestamp o'
           ∧ Order.filled_amount o' = 2%float.
Proof.
  intros calls.
  assert (StronglySorted Z.le (clock_readings calls ++ [110])) as Hsorted.
  { vm_compute clock_readings. repeat constructor; lia. }
  eexists. split; [vm_compute; reflexivity|].
  split; [reflexivity|]. split; [reflexivity|].
  destruct (cancelOrder_cancels 110 "order_100" _ (run calls OrderManager.init)
              ltac:(vm_compute; reflexivity))
    as (om' & o' & Hrun & Hlook & Hst & Hts & _ & Hfill & _ & _ & _ & _ & _
        & _ & Hclock).
  destruct (Hclock calls eq_refl Hsorted) as [Hord _].
  exists om', o'. repeat split; try done.
Defined.

(** C3 as stated fails when the system clock is set back between the
    placement and the cancel: an order created at reading 101 and cancelled
    at reading 50 is CANCELLED with an update time before its creation
    time. *)
Lemma cancelOrder_clock_counterexample :
  let om :=
    run [PlaceOrder 100 101 "BTC-PERPETUAL" Order.BUY 50000 2 Order.LIMIT]
      OrderManager.init in
  ∃ om' o',
    cancelOrder true 50 "order_100" om
      = (true, om', [ApiCancelOrder "order_100"])
    ∧ orders_ om' !! "order_100" = Some o'
    ∧ Order.status o' = Order.CANCELLED
    ∧ Order.creation_timestamp o' = 101
    ∧ Order.last_update_timestamp o' = 50
    ∧ ¬ (Order.creation_timestamp o' ≤ Order.last_update_timestamp o').
Proof.
  intros om. eexists _, _. split; [reflexivity|].
  split; [vm_compute; reflexivity|]. simpl. split_and!; try done. lia.
Qed.

Lemma onOrderUpdate_known (now : Z) (data : json) (om : OrderManager.t)
    (order_id status : string) (filled : float) (o : Order.t) :
  decode_order_update data = Ok (order_id, status, filled) →
  orders_ om !! order_id = Some o →
  onOrderUpdate now (Some data) om
    = let result :=
        apply_status data status filled
          (Order.set_last_update_timestamp now
             (Order.set_filled_amount filled o)) in
      (with_orders (<[order_id := result.1]> (orders_ om)) om, result.2).
Proof.
  intros Hdecode Hknown. unfold onOrderUpdate.
  rewrite Hdecode, Hknown. by destruct (apply_status _ _ _ _).
Qed.

Lemma decode_order_update_absent_state (data : json) :
  contains data "state" = false →
  ∃ e, decode_order_update data = Throw e.
Proof.
  intros Habsent. unfold decode_order_update.
  destruct (subscript data "order_id") as [j1|]; simpl; [|eauto].
  destruct (get_string j1); simpl; [|eauto].
  destruct data as [| | | | |members]; simpl in *; eauto.
  destruct (assoc "state" members) eqn:Hassoc; simpl; eauto.
  apply bool_decide_eq_false in Habsent. destruct Habsent. eauto.
Qed.

(** C2, amended.  For an update that carries a string "order_id", a string
    "state" and a numeric "filled_amount":
    - if the id is unknown, the registry is returned unchanged and nothing is
      logged;
    - if the id is known, the order's fill becomes the supplied amount and
      its status follows the state: open, filled, cancelled and rejected give
      OPEN, FILLED, CANCELLED and REJECTED (a string "error" member being
      recorded as the error message of a rejected order, the message staying
      as it was when there is no such member); any other state string gives
      PARTIALLY_FILLED when 0 < filled < requested amount.
    An update with no "state" member is dropped: the registry is unchanged
    and the failure is logged. *)
Theorem onOrderUpdate_status_mapping (now : Z) (data : json)
    (om : OrderManager.t) :
  (∀ (order_id status : string) (filled : float),
     decode_order_update data = Ok (order_id, status, filled) →
     match orders_ om !! order_id with
     | None => onOrderUpdate now (Some data) om = (om, None)
     | Some o =>
         ∃ (o' : Order.t) (caught : option exception),
           onOrderUpdate now (Some data) om
             = (with_orders (<[order_id := o']> (orders_ om)) om, caught)
           ∧ Order.filled_amount o' = filled
           ∧ (status = "open" → Order.status o' = Order.OPEN)
           ∧ (status = "filled" → Order.status o' = Order.FILLED)
           ∧ (status = "cancelled" → Order.status o' = Order.CANCELLED)
           ∧ (status = "rejected" →
                Order.status o' = Order.REJECTED
                ∧ (∀ msg, subscript data "error" = Ok (JString msg) →
                          Order.error_message o' = msg)
                ∧ (contains data "error" = false →
                   Order.error_message o' = Order.error_message o))
           ∧ (status ∉ recognised_statuses →
              PrimFloat.ltb 0 filled = true →
              PrimFloat.ltb filled (Order.amount o) = true →
              Order.status o' = Order.PARTIALLY_FILLED)
     end)
  ∧ (contains data "state" = false →
     ∃ e, onOrderUpdate now (Some data) om = (om, Some e)).
Proof.
  split.
  - intros order_id status filled Hdecode.
    destruct (orders_ om !! order_id) as [o|] eqn:Hknown.
    + rewrite (onOrderUpdate_known _ _ _ _ _ _ _ Hdecode Hknown).
      eexists _, _. split; [reflexivity|].
      pose proof (apply_status_frame data status filled
                    (Order.set_last_update_timestamp now
                       (Order.set_filled_amount filled o))) as Hframe.
      simpl in Hframe. destruct Hframe as (_&_&_&_&_&_&Hfill&_).
      split; [by rewrite Hfill|].
      unfold apply_status, recognised_statuses.
      split_and!.
      * by intros ->.
      * by intros ->.
      * by intros ->.
      * intros ->. simpl. split_and!.
        -- by repeat case_match.
        -- intros msg Hmsg.
           destruct data as [| | | | |members]; simpl in *; try done.
           destruct (assoc "error" members) as [j|]; simpl in *; [|done].
           by injection Hmsg as ->.
        -- intros Hnone. by rewrite Hnone.
      * intros Hother Hpos Hpart.
        destruct (String.eqb_spec status "open") as [->|_];
          [exfalso; apply Hother; set_solver|].
        destruct (String.eqb_spec status "filled") as [->|_];
          [exfalso; apply Hother; set_solver|].
        destruct (String.eqb_spec status "cancelled") as [->|_];
          [exfalso; apply Hother; set_solver|].
        destruct (String.eqb_spec status "rejected") as [->|_];
          [exfalso; apply Hother; set_solver|].
        simpl. rewrite Hpos, Hpart. done.
    + unfold onOrderUpdate. by rewrite Hdecode, Hknown.
  - intros Habsent.
    destruct (decode_order_update_absent_state data Habsent) as [e He].
    exists e. unfold onOrderUpdate. by rewrite He.
Qed.
(** The update of the repository's own test for C2: a placed order is
    reported filled. *)
Lemma onOrderUpdate_status_mapping_witness :
  let om :=
    (placeOrder 100 101 "BTC-PERPETUAL" Order.BUY 50000 0.5 Order.LIMIT
       OrderManager.init).1.2 in
  let data :=
    JObject [("filled_amount", JNumber 0.5);
             ("order_id", JString "order_100");
             ("state", JString "filled")] in
  ∃ o', orders_ (onOrderUpdate 105 (Some data) om).1 !! "order_100" = Some o'
        ∧ Order.status o' = Order.FILLED
        ∧ Order.filled_amount o' = 0.5%float.
Proof.
  intros om data.
  destruct (onOrderUpdate_status_mapping 105 data om) as [Hmap _].
  specialize (Hmap "order_100" "filled" 0.5%float eq_refl).
  destruct (orders_ om !! "order_100") as [o|] eqn:Hknown;
    [|vm_compute in Hknown; discriminate].
  destruct Hmap as (o' & caught & Hrun & Hfill & _ & Hfilled & _).
  exists o'. rewrite Hrun. simpl. rewrite lookup_insert_eq. auto.
Defined.

(** C2 as stated fails where the "state" member is absent: for a known
    order of amount 2 and a supplied fill of 1, so that 0 < filled <
    requested, the order does not become PARTIALLY_FILLED; the update is
    dropped and the order stays OPEN with fill 0. *)
Lemma onOrderUpdate_absent_status_counterexample :
  let om :=
    (placeOrder 100 101 "BTC-PERPETUAL" Order.BUY 50000 2 Order.LIMIT
       OrderManager.init).1.2 in
  let data :=
    JObject [("filled_amount", JNumber 1); ("order_id", JString "order_100")] in
  contains data "state" = false
  ∧ (∃ o, orders_ om !! "order_100" = Some o
          ∧ PrimFloat.ltb 0 1 = true
          ∧ PrimFloat.ltb 1 (Order.amount o) = true)
  ∧ ¬ (∃ o', orders_ (onOrderUpdate 105 (Some data) om).1 !! "order_100"
               = Some o'
             ∧ Order.status o' = Order.PARTIALLY_FILLED)
  ∧ onOrderUpdate 105 (Some data) om = (om, Some type_error).
Proof.
  intros om data. split; [reflexivity|]. split.
  { eexists. split; [vm_compute; reflexivity|]. split; reflexivity. }
  split; [|reflexivity].
  intros (o' & Hlook & Hstatus).
  vm_compute in Hlook. injection Hlook as <-. discriminate Hstatus.
Qed.

(** C9. For a known order and an update that decodes (string id and state,
    numeric fill) with a state outside open, filled, cancelled and rejected:
    the order's fill becomes the supplied amount and its update time the
    current clock reading; its status becomes PARTIALLY_FILLED exactly when
    0 < filled < requested amount and is otherwise what it was; every other
    member of the order, and every other order, is unchanged, and nothing is
    logged. *)
Theorem onOrderUpdate_unrecognised_status (now : Z) (data : json)
    (om : OrderManager.t) (order_id status : string) (filled : float)
    (o : Order.t) :
  decode_order_update data = Ok (order_id, status, filled) →
  status ∉ recognised_statuses →
  orders_ om !! order_id = Some o →
  ∃ o' : Order.t,
    onOrderUpdate now (Some data) om
      = (with_orders (<[order_id := o']> (orders_ om)) om, None)
    ∧ Order.filled_amount o' = filled
    ∧ Order.last_update_timestamp o' = now
    ∧ Order.status o'
      = (if (PrimFloat.ltb 0 filled
             && PrimFloat.ltb filled (Order.amount o))%bool
         then Order.PARTIALLY_FILLED else Order.status o)
    ∧ Order.price o' = Order.price o
    ∧ Order.amount o' = Order.amount o
    ∧ Order.side o' = Order.side o
    ∧ Order.type o' = Order.type o
    ∧ Order.creation_timestamp o' = Order.creation_timestamp o
    ∧ Order.order_id o' = Order.order_id o
    ∧ Order.instrument o' = Order.instrument o
    ∧ Order.error_message o' = Order.error_message o.
Proof.
  intros Hdecode Hother Hknown.
  rewrite (onOrderUpdate_known _ _ _ _ _ _ _ Hdecode Hknown).
  unfold apply_status, recognised_statuses in *.
  destruct (String.eqb_spec status "open") as [->|_];
    [exfalso; apply Hother; set_solver|].
  destruct (String.eqb_spec status "filled") as [->|_];
    [exfalso; apply Hother; set_solver|].
  destruct (String.eqb_spec status "cancelled") as [->|_];
    [exfalso; apply Hother; set_solver|].
  destruct (String.eqb_spec status "rejected") as [->|_];
    [exfalso; apply Hother; set_solver|].
  destruct (PrimFloat.ltb 0 filled && PrimFloat.ltb filled (Order.amount o))%bool
    eqn:Hpartial; simpl; rewrite Hpartial; simpl;
    eexists; (split; [reflexivity|]); simpl; by split_and!.
Qed.

(** Two updates for C9 on an OPEN order of amount 2, both with the state
    "untriggered": a fill of 1 makes it PARTIALLY_FILLED, a fill of 2 leaves
    it OPEN. *)
Lemma onOrderUpdate_unrecognised_status_witness :
  let om :=
    (placeOrder 100 101 "BTC-PERPETUAL" Order.BUY 50000 2 Order.LIMIT
       OrderManager.init).1.2 in
  let update (filled : float) :=
    JObject [("filled_amount", JNumber filled);
             ("order_id", JString "order_100");
             ("state", JString "untriggered")] in
  (∃ o', orders_ (onOrderUpdate 105 (Some (update 1%float)) om).1 !! "order_100"
           = Some o'
         ∧ Order.filled_amount o' = 1%float
         ∧ Order.last_update_timestamp o' = 105
         ∧ Order.status o' = Order.PARTIALLY_FILLED)
  ∧ (∃ o', orders_ (onOrderUpdate 105 (Some (update 2%float)) om).1 !! "order_100"
             = Some o'
           ∧ Order.filled_amount o' = 2%float
           ∧ Order.last_update_timestamp o' = 105
           ∧ Order.status o' = Order.OPEN).
Proof.
  intros om update.
  assert (∀ s, s = "untriggered" → s ∉ recognised_statuses) as Hother.
  { intros s -> Hin. unfold recognised_statuses in Hin.
    repeat (apply elem_of_cons in Hin as [Hin|Hin]; [discriminate Hin|]).
    by apply not_elem_of_nil in Hin. }
  split.
  - destruct (onOrderUpdate_unrecognised_status 105 (update 1%float) om
                "order_100" "untriggered" 1%float _ eq_refl
                (Hother _ eq_refl) ltac:(vm_compute; reflexivity))
      as (o' & Hrun & Hfill & Hts & Hstatus & _).
    exists o'. rewrite Hrun. simpl. rewrite lookup_insert_eq. auto.
  - destruct (onOrderUpdate_unrecognised_status 105 (update 2%float) om
                "order_100" "untriggered" 2%float _ eq_refl
                (Hother _ eq_refl) ltac:(vm_compute; reflexivity))
      as (o' & Hrun & Hfill & Hts & Hstatus & _).
    exists o'. rewrite Hrun. simpl. rewrite lookup_insert_eq. auto.
Defined.

Lemma populate_entries (elems : list json) (pairs : list (string * float))
    (positions : gmap string float) :
  Forall2 position_entry elems pairs →
  populate elems positions
    = (foldl (fun m entry => <[entry.1 := entry.2]> m) positions pairs, None).
Proof.
  intros Hentries. revert positions.
  induction Hentries as [|position [instrument size] elems pairs Hentry _ IH];
    intros positions; [done|].
  destruct Hentry as (members & -> & Hname & Hsize). simpl in *.
  rewrite Hname, Hsize. simpl. apply IH.
Qed.

Lemma foldl_insert_list_to_map (pairs : list (string * float)) :
  NoDup pairs.*1 →
  foldl (fun m entry => <[entry.1 := entry.2]> m) (∅ : gmap string float) pairs
    = list_to_map pairs.
Proof.
  induction pairs as [|[instrument size] pairs IH] using rev_ind; [done|].
  rewrite fmap_app. simpl. intros Hnodup.
  apply NoDup_app in Hnodup as (Hnodup & Hfresh & _).
  rewrite foldl_snoc, IH by done. simpl.
  rewrite list_to_map_snoc; [done|].
  intros Hin. apply (Hfresh _ Hin). by apply list_elem_of_singleton.
Qed.

(** C6. Whatever the position table held, after a position update whose
    array carries N pairs with distinct instruments the table holds exactly
    those pairs: an instrument maps to a size if and only if the update
    carries that pair, the table has N entries, no order is touched and
    nothing is logged. *)
Theorem onPositionUpdate_replaces (om : OrderManager.t) (elems : list json)
    (pairs : list (string * float)) :
  Forall2 position_entry elems pairs →
  NoDup pairs.*1 →
  ∃ om' : OrderManager.t,
    onPositionUpdate (Some (JArray elems)) om = (om', None)
    ∧ getCurrentPositions om' = list_to_map pairs
    ∧ (∀ instrument size,
         getCurrentPositions om' !! instrument = Some size
         ↔ (instrument, size) ∈ pairs)
    ∧ base.size (getCurrentPositions om') = length pairs
    ∧ orders_ om' = orders_ om.
Proof.
  intros Hentries Hnodup. unfold onPositionUpdate. simpl.
  rewrite (populate_entries _ _ _ Hentries).
  rewrite foldl_insert_list_to_map by done.
  eexists. split; [reflexivity|]. simpl.
  split; [done|]. split.
  - intros instrument size. symmetry. by apply elem_of_list_to_map.
  - split; [|done]. by apply map_size_list_to_map.
Qed.

(** The update of the repository's own test for C6, applied to a table
    that already holds a position in another instrument. *)
Lemma onPositionUpdate_replaces_witness :
  let om :=
    with_positions (<["SOL-PERPETUAL" := 3%float]> ∅) OrderManager.init in
  let elems :=
    [JObject [("instrument_name", JString "BTC-PERPETUAL");
              ("size", JNumber 0.5)];
     JObject [("instrument_name", JString "ETH-PERPETUAL");
              ("size", JNumber (-1))]] in
  ∃ om', onPositionUpdate (Some (JArray elems)) om = (om', None)
         ∧ getCurrentPositions om' !! "BTC-PERPETUAL" = Some 0.5%float
         ∧ getCurrentPositions om' !! "ETH-PERPETUAL" = Some (-1)%float
         ∧ getCurrentPositions om' !! "SOL-PERPETUAL" = None
         ∧ base.size (getCurrentPositions om') = 2%nat.
Proof.
  intros om elems.
  pose (pairs := [("BTC-PERPETUAL", 0.5%float); ("ETH-PERPETUAL", (-1)%float)]).
  assert (Forall2 position_entry elems pairs) as Hentries.
  { repeat constructor; eexists; split_and!; reflexivity. }
  assert (NoDup pairs.*1) as Hnodup.
  { simpl. repeat constructor; set_solver. }
  destruct (onPositionUpdate_replaces om elems pairs Hentries Hnodup)
    as (om' & Hrun & Htable & _ & Hsize & _).
  exists om'. split; [done|]. rewrite Htable. split_and!; reflexivity.
Defined.

(** The "Place order" and "Modify order" cases of
    tests/order_manager_test.cpp, with the clock readings 100, 101 and 102. *)
Example test_place_order (junk : Order.t) :
  let '(order_id, om, _) :=
    placeOrder 100 101 "BTC-PERPETUAL" Order.BUY 50000 0.5 Order.LIMIT
      OrderManager.init in
  order_id = "order_100"
  ∧ getOrder junk order_id om
    = Ok (Order.mk "order_100" "BTC-PERPETUAL" Order.BUY Order.LIMIT 50000 0.5
            0 Order.OPEN "" 101 101).
Proof. split; [reflexivity|]. by apply getOrder_known. Qed.

Example test_modify_order (junk : Order.t) :
  let '(order_id, om, _) :=
    placeOrder 100 101 "BTC-PERPETUAL" Order.BUY 50000 0.5 Order.LIMIT
      OrderManager.init in
  let '(success, om, _) := modifyOrder true 102 order_id 51000 0.25 om in
  success = true
  ∧ getOrder junk order_id om
    = Ok (Order.mk "order_100" "BTC-PERPETUAL" Order.BUY Order.LIMIT 51000 0.25
            0 Order.OPEN "" 101 102).
Proof. split; [reflexivity|]. by apply getOrder_known. Qed.

End order_registry.

(** ** Order-book cache *)

Section order_book_cache.

Import MarketDataClient.

(** C8. [getOrderbook] returns normally for every instrument and every
    client state, and hands the client back as it was.  For an instrument
    with no cached book, the book it returns is tagged with the queried
    instrument and has no bid and no ask level. *)
Theorem getOrderbook_total (junk : Z) (instrument : string)
    (md : MarketDataClient.t) :
  (∃ book, getOrderbook junk instrument md = (Ok book, md))
  ∧ (orderbooks_ md !! instrument = None →
     ∃ book, getOrderbook junk instrument md = (Ok book, md)
             ∧ Orderbook.instrument book = instrument
             ∧ Orderbook.bids book = []
             ∧ Orderbook.asks book = []).
Proof.
  unfold getOrderbook. split.
  - destruct (orderbooks_ md !! instrument) as [book|] eqn:Hcached.
    + rewrite bool_decide_eq_true_2 by eauto. eauto.
    + rewrite bool_decide_eq_false_2 by (intros [? ?]; done). eauto.
  - intros ->.
    rewrite bool_decide_eq_false_2 by (intros [? ?]; done). eauto.
Qed.

(** C8 on a client that was only constructed: nothing was ever subscribed
    or cached. *)
Lemma getOrderbook_total_witness :
  ∃ book,
    getOrderbook 0 "BTC-PERPETUAL" MarketDataClient.init
      = (Ok book, MarketDataClient.init)
    ∧ Orderbook.instrument book = "BTC-PERPETUAL"
    ∧ Orderbook.bids book = []
    ∧ Orderbook.asks book = [].
Proof.
  apply (getOrderbook_total 0 "BTC-PERPETUAL" MarketDataClient.init).
  reflexivity.
Defined.

Lemma substring_all (s : string) : String.substring 0 (String.length s) s = s.
Proof. induction s as [|c s IH]; simpl; [done|]. by rewrite IH. Qed.

Lemma substring_prefix (s tail : string) :
  String.substring 0 (String.length s) (s +:+ tail) = s.
Proof.
  induction s as [|c s IH]; [by destruct tail|].
  change (String c s +:+ tail) with (String c (s +:+ tail)).
  simpl. by rewrite IH.
Qed.

Lemma prefix_dot (c : ascii) (s : string) :
  String.prefix "." (String c s) = bool_decide (c = "."%char).
Proof.
  cbn [String.prefix]. destruct (ascii_dec "." c) as [<-|Hne].
  - by destruct s.
  - by rewrite bool_decide_eq_false_2.
Qed.

Lemma find_first_dot (s tail : string) :
  find s "." = None →
  find (s +:+ "." +:+ tail) "." = Some (String.length s).
Proof.
  unfold find. induction s as [|c s IH]; [intros _; by destruct tail|].
  change (String c s +:+ "." +:+ tail) with (String c (s +:+ "." +:+ tail)).
  cbn [String.index String.length].
  rewrite !prefix_dot. case_bool_decide; [done|].
  destruct (String.index 0 "." s) eqn:Hs; [done|].
  intros _. by rewrite IH.
Qed.

Lemma channel_instrument_book (instrument rest : string) :
  find instrument "." = None →
  find ("book." +:+ instrument +:+ "." +:+ rest) "book." = Some 0%nat
  ∧ MarketDataClient.channel_instrument ("book." +:+ instrument +:+ "." +:+ rest)
    = instrument.
Proof.
  intros Hdot. split; [by destruct instrument|].
  unfold MarketDataClient.channel_instrument.
  assert (substr_from ("book." +:+ instrument +:+ "." +:+ rest) 5
          = instrument +:+ "." +:+ rest) as ->.
  { unfold substr_from.
    change ("book." +:+ instrument +:+ "." +:+ rest)
      with (String "b" (String "o" (String "o" (String "k" (String "."
              (instrument +:+ "." +:+ rest)))))).
    cbn [String.length Nat.sub String.substring].
    rewrite Nat.sub_0_r. apply substring_all. }
  rewrite find_first_dot by done. apply substring_prefix.
Qed.


Lemma collect_levels_level_json (listed levels : list Orderbook.Level) :
  collect_levels (level_json <$> listed) levels = Ok (levels ++ listed).
Proof.
  revert levels. induction listed as [|level listed IH]; intros levels.
  - by rewrite app_nil_r.
  - cbn. rewrite IH. destruct level. by rewrite <- app_assoc.
Qed.

Lemma read_levels_listed (book : list (string * json)) (key : string)
    (listed : list Orderbook.Level) :
  assoc key book = Some (JArray (level_json <$> listed)) →
  read_levels (JObject book) key = Ok listed.
Proof.
  intros Hkey. unfold read_levels. simpl. rewrite Hkey.
  rewrite bool_decide_eq_true_2 by eauto. simpl.
  apply collect_levels_level_json.
Qed.

(** What [ingest] does with a document is decided by the document alone:
    it throws, or it is not a book update and nothing happens, or it
    publishes a book whose instrument and levels the document fixes. *)
Lemma ingest_shape (data : json) :
  (∃ e, ∀ now md, ingest now data md = Throw e)
  ∨ (∀ now md, ingest now data md = Ok (md, []))
  ∨ (∃ instrument bids asks, ∀ now md,
       ingest now data md
       = Ok (publish {| Orderbook.instrument := instrument;
                        Orderbook.bids := bids;
                        Orderbook.asks := asks;
                        Orderbook.timestamp := now |} md)).
Proof.
  unfold ingest.
  destruct (is_channel_message data) as [[|]|e]; simpl; [| |eauto]; [|eauto].
  destruct (subscript data "params") as [params|e]; simpl; [|eauto].
  destruct (subscript params "channel") as [j|e]; simpl; [|eauto].
  destruct (get_string j) as [channel|e]; simpl; [|eauto].
  case_bool_decide; [|eauto].
  destruct (subscript params "data") as [book|e]; simpl; [|eauto].
  destruct (read_levels book "bids") as [bids|e]; simpl; [|eauto].
  destruct (read_levels book "asks") as [asks|e]; simpl; [|eauto].
  right; right. eauto.
Qed.

(** C4, amended.  Whatever the client state, the message and the two clock
    readings, ingesting a message twice in succession leaves the client as a
    single ingestion at the second reading does; it therefore differs from
    the state after the first ingestion at most in the stored timestamp of
    the message's instrument: running flag, subscriptions, callback and the
    instrument, bids and asks of every cached book are the same, and the
    whole state is the same when the two readings coincide. *)
Theorem processMessage_idempotent (md : MarketDataClient.t)
    (message : option json) (t1 t2 : Z) :
  let once := (processMessage t1 message md).1.1 in
  let twice := (processMessage t2 message once).1.1 in
  twice = (processMessage t2 message md).1.1
  ∧ contents twice = contents once
  ∧ (∀ instrument book,
       orderbooks_ twice !! instrument = Some book →
       orderbooks_ once !! instrument = Some book
       ∨ (Orderbook.timestamp book = t2
          ∧ ∃ book1, orderbooks_ once !! instrument = Some book1
                     ∧ Orderbook.timestamp book1 = t1
                     ∧ without_timestamp book = without_timestamp book1))
  ∧ (t1 = t2 → twice = once).
Proof.
  unfold processMessage.
  destruct message as [data|]; [|by auto].
  destruct (ingest_shape data)
    as [[e Hthrow]|[Hskip|(instrument & bids & asks & Hpublish)]].
  - rewrite !Hthrow. cbn [fst]. rewrite ?Hthrow. by auto.
  - rewrite !Hskip. cbn [fst]. rewrite ?Hskip. by auto.
  - rewrite !Hpublish. cbn [fst publish]. rewrite ?Hpublish.
    unfold publish, with_orderbooks, contents. simpl.
    rewrite !insert_insert_eq. split; [done|]. split.
    { by rewrite !fmap_insert. }
    split.
    + intros i book. destruct (decide (instrument = i)) as [<-|Hne].
      * rewrite !lookup_insert_eq. intros [= <-]. right. simpl. eauto.
      * rewrite !lookup_insert_ne by done. auto.
    + by intros ->.
Qed.

(** The amended C4 on a book update ingested at readings 5 and 9 (same
    contents, later timestamp) and twice at reading 5 (same state). *)
Lemma processMessage_idempotent_witness :
  let message :=
    Some (JObject
      [("method", JString "subscription");
       ("params",
        JObject [("channel", JString "book.BTC-PERPETUAL.none.10.100ms");
                 ("data",
                  JObject [("asks", JArray [JArray [JNumber 50001; JNumber 2]]);
                           ("bids", JArray [JArray [JNumber 50000; JNumber 1]])])])]) in
  let once := (processMessage 5 message MarketDataClient.init).1.1 in
  (processMessage 5 message once).1.1 = once
  ∧ contents (processMessage 9 message once).1.1 = contents once
  ∧ (processMessage 9 message once).1.1
    = (processMessage 9 message MarketDataClient.init).1.1.
Proof.
  intros message once.
  destruct (processMessage_idempotent MarketDataClient.init message 5 5)
    as (_ & _ & _ & Hsame).
  destruct (processMessage_idempotent MarketDataClient.init message 5 9)
    as (Hlast & Hcontents & _).
  split; [exact (Hsame eq_refl)|]. split; [exact Hcontents|exact Hlast].
Defined.

(** C4 as stated fails on the stored timestamp: a book update ingested at
    clock reading 1 and again at reading 2 leaves a cache that is not the
    one the first ingestion left. *)
Lemma processMessage_twice_counterexample :
  let message :=
    Some (JObject
      [("method", JString "subscription");
       ("params",
        JObject [("channel", JString "book.BTC-PERPETUAL.none.10.100ms");
                 ("data",
                  JObject [("asks", JArray [JArray [JNumber 50001; JNumber 2]]);
                           ("bids", JArray [JArray [JNumber 50000; JNumber 1]])])])]) in
  let once := (processMessage 1 message MarketDataClient.init).1.1 in
  let twice := (processMessage 2 message once).1.1 in
  twice ≠ once
  ∧ Orderbook.timestamp <$> orderbooks_ once !! "BTC-PERPETUAL" = Some 1
  ∧ Orderbook.timestamp <$> orderbooks_ twice !! "BTC-PERPETUAL" = Some 2.
Proof.
  intros message once twice.
  assert (Orderbook.timestamp <$> orderbooks_ once !! "BTC-PERPETUAL" = Some 1)
    as Honce by (vm_compute; reflexivity).
  assert (Orderbook.timestamp <$> orderbooks_ twice !! "BTC-PERPETUAL" = Some 2)
    as Htwice by (vm_compute; reflexivity).
  split; [|done].
  intros Heq. rewrite Heq in Htwice. rewrite Honce in Htwice. discriminate.
Qed.

Lemma ingest_notification (now : Z) (data : json) (channel : string)
    (bids asks : list Orderbook.Level) (md : MarketDataClient.t) :
  book_notification data channel bids asks →
  find channel "book." = Some 0%nat →
  ingest now data md
  = Ok (publish {| Orderbook.instrument := channel_instrument channel;
                   Orderbook.bids := bids;
                   Orderbook.asks := asks;
                   Orderbook.timestamp := now |} md).
Proof.
  intros (members & params & book & -> & Hmethod & Hparams & Hchannel
          & Hdata & Hbids & Hasks) Hprefix.
  unfold ingest, is_channel_message. simpl.
  rewrite Hmethod, Hparams. simpl.
  rewrite !bool_decide_eq_true_2 by eauto. simpl.
  rewrite Hchannel. simpl.
  rewrite !bool_decide_eq_true_2 by eauto. simpl.
  rewrite Hdata. simpl.
  by rewrite (read_levels_listed _ _ _ Hbids), (read_levels_listed _ _ _ Hasks).
Qed.

(** C10. A well-formed notification on the channel
    [book.<instrument>.<rest>] is ingested whether or not the instrument is
    in the subscription set: the book it lists is stored under the
    instrument with the current clock reading, the update callback, when one
    is registered, is invoked once with that book, nothing is logged, the
    subscription set is not changed, and [getOrderbook] then returns that
    book. *)
Theorem processMessage_unsubscribed (now junk : Z) (data : json)
    (instrument rest : string) (bids asks : list Orderbook.Level)
    (md : MarketDataClient.t) :
  find instrument "." = None →
  book_notification data ("book." +:+ instrument +:+ "." +:+ rest) bids asks →
  instrument ∉ getSubscribedInstruments md →
  let book :=
    {| Orderbook.instrument := instrument;
       Orderbook.bids := bids;
       Orderbook.asks := asks;
       Orderbook.timestamp := now |} in
  ∃ md' : MarketDataClient.t,
    processMessage now (Some data) md
      = (md',
         (if orderbook_callback_ md then [OrderbookCallback book] else []),
         None)
    ∧ orderbooks_ md' !! instrument = Some book
    ∧ (instrument ∉ getSubscribedInstruments md')
    ∧ getOrderbook junk instrument md' = (Ok book, md').
Proof.
  intros Hdot Hdata Hunsub book.
  destruct (channel_instrument_book instrument rest Hdot) as [Hprefix Hname].
  unfold processMessage.
  rewrite (ingest_notification now _ _ _ _ md Hdata Hprefix), Hname.
  fold book. unfold publish. eexists. split; [reflexivity|]. simpl.
  split; [apply lookup_insert_eq|]. split; [done|].
  unfold getOrderbook. simpl. rewrite lookup_insert_eq.
  by rewrite bool_decide_eq_true_2 by eauto.
Qed.

(** C10 on a running client that subscribed to an instrument and then
    unsubscribed from it: a later notification for that instrument is
    cached and handed to the callback all the same. *)
Lemma processMessage_unsubscribed_witness :
  let md0 := (start (setOrderbookCallback MarketDataClient.init)).1 in
  let md1 := (subscribe 10 None "ETH-PERPETUAL" md0).1.1 in
  let md := (unsubscribe "ETH-PERPETUAL" md1).1 in
  let data :=
    JObject
      [("method", JString "subscription");
       ("params",
        JObject [("channel", JString "book.ETH-PERPETUAL.none.10.100ms");
                 ("data",
                  JObject [("asks", JArray [JArray [JNumber 3001; JNumber 2]]);
                           ("bids", JArray [JArray [JNumber 3000; JNumber 1]])])])] in
  let book :=
    {| Orderbook.instrument := "ETH-PERPETUAL";
       Orderbook.bids := [Orderbook.mkLevel 3000 1];
       Orderbook.asks := [Orderbook.mkLevel 3001 2];
       Orderbook.timestamp := 20 |} in
  "ETH-PERPETUAL" ∈ getSubscribedInstruments md1
  ∧ ("ETH-PERPETUAL" ∉ getSubscribedInstruments md)
  ∧ orderbooks_ md !! "ETH-PERPETUAL" = None
  ∧ ∃ md', processMessage 20 (Some data) md = (md', [OrderbookCallback book], None)
           ∧ getOrderbook 0 "ETH-PERPETUAL" md' = (Ok book, md').
Proof.
  intros md0 md1 md data book.
  assert ("ETH-PERPETUAL" ∉ getSubscribedInstruments md) as Hunsub.
  { vm_compute. apply not_elem_of_nil. }
  split; [vm_compute; apply list_elem_of_here|].
  split; [done|]. split; [reflexivity|].
  destruct (processMessage_unsubscribed 20 0 data "ETH-PERPETUAL" "none.10.100ms"
              [Orderbook.mkLevel 3000 1] [Orderbook.mkLevel 3001 2] md)
    as (md' & Hrun & _ & _ & Hget).
  - reflexivity.
  - eexists _, _, _. split_and!; reflexivity.
  - done.
  - exists md'. split; [|done]. exact Hrun.
Defined.

End order_book_cache.

(** ** Subscription broker *)

Section subscription_broker.

Import WebSocketConnection WebSocketServer.

Lemma elem_of_in_order (s : gset string) (x : string) : x ∈ in_order s ↔ x ∈ s.
Proof.
  unfold in_order. rewrite merge_sort_Permutation. apply elem_of_elements.
Qed.

Lemma length_omap_le {A B : Type} (f : A → option B) (l : list A) :
  (length (omap f l) ≤ length l)%nat.
Proof.
  induction l as [|x l IH]; csimpl; [done|].
  destruct (f x); csimpl; lia.
Qed.

Lemma erase_subscriber_spec (client_id instrument : string)
    (by_instrument : gmap string (gset string)) (i c : string) :
  c ∈ default ∅ (erase_subscriber client_id instrument by_instrument !! i)
  ↔ c ∈ default ∅ (by_instrument !! i) ∧ (i = instrument → c ≠ client_id).
Proof.
  unfold erase_subscriber.
  destruct (by_instrument !! instrument) as [ids|] eqn:Hentry.
  - case_decide as Hempty.
    + destruct (decide (i = instrument)) as [->|Hne].
      * rewrite lookup_delete_eq, Hentry. simpl. set_solver.
      * rewrite lookup_delete_ne by done. naive_solver.
    + destruct (decide (i = instrument)) as [->|Hne].
      * rewrite lookup_insert_eq, Hentry. simpl. set_solver.
      * rewrite lookup_insert_ne by done. naive_solver.
  - destruct (decide (i = instrument)) as [->|Hne].
    + rewrite Hentry. simpl. set_solver.
    + naive_solver.
Qed.

Lemma erase_subscribers_spec (client_id : string) (instruments : list string)
    (by_instrument : gmap string (gset string)) (i c : string) :
  c ∈ default ∅
        (foldl (fun m instrument => erase_subscriber client_id instrument m)
           by_instrument instruments !! i)
  ↔ c ∈ default ∅ (by_instrument !! i) ∧ (i ∈ instruments → c ≠ client_id).
Proof.
  revert by_instrument.
  induction instruments as [|instrument instruments IH]; intros by_instrument.
  - simpl. set_solver.
  - simpl. rewrite IH, erase_subscriber_spec. set_solver.
Qed.

Lemma addSubscription_agree (client : Pointer) (instrument : string)
    (ws : WebSocketServer.t) :
  indexes_agree ws → indexes_agree (addSubscription client instrument ws).1.
Proof.
  intros Hagree c i. simpl.
  specialize (Hagree c i).
  destruct (decide (getId client = c)) as [<-|Hc];
    destruct (decide (instrument = i)) as [<-|Hi];
    rewrite ?lookup_insert_eq, ?lookup_insert_ne by done; simpl;
    set_solver.
Qed.

Lemma removeSubscription_agree (client : Pointer) (instrument : string)
    (ws : WebSocketServer.t) :
  indexes_agree ws → indexes_agree (removeSubscription client instrument ws).1.
Proof.
  intros Hagree c i. simpl. rewrite erase_subscriber_spec.
  specialize (Hagree c i).
  destruct (client_subscriptions_ ws !! getId client) as [instruments|] eqn:Hentry.
  - destruct (decide (getId client = c)) as [<-|Hc].
    + rewrite lookup_insert_eq. rewrite Hentry in Hagree. simpl in *. set_solver.
    + rewrite lookup_insert_ne by done. naive_solver.
  - destruct (decide (getId client = c)) as [<-|Hc].
    + rewrite Hentry in *. simpl in *. set_solver.
    + naive_solver.
Qed.

Lemma removeAllSubscriptions_agree (client : Pointer) (ws : WebSocketServer.t) :
  indexes_agree ws → indexes_agree (removeAllSubscriptions client ws).
Proof.
  intros Hagree c i. simpl.
  rewrite erase_subscribers_spec, elem_of_in_order.
  specialize (Hagree c i).
  destruct (decide (getId client = c)) as [<-|Hc].
  - rewrite lookup_delete_eq. simpl. set_solver.
  - rewrite lookup_delete_ne by done. naive_solver.
Qed.

Lemma step_agree (ws : WebSocketServer.t) (c : call) :
  indexes_agree ws → indexes_agree (step ws c).
Proof.
  intros Hagree. destruct c as [client instrument|client instrument|client].
  - by apply addSubscription_agree.
  - by apply removeSubscription_agree.
  - by apply removeAllSubscriptions_agree.
Qed.

Lemma run_agree (calls : list call) (ws : WebSocketServer.t) :
  indexes_agree ws → indexes_agree (run calls ws).
Proof.
  revert ws. induction calls as [|c calls IH]; intros ws Hagree; [done|].
  simpl. apply IH. by apply step_agree.
Qed.

Lemma init_agree : indexes_agree WebSocketServer.init.
Proof. intros c i. simpl. by rewrite !lookup_empty. Qed.

(** C1. After any sequence of [addSubscription], [removeSubscription] and
    [removeAllSubscriptions] calls on a new broker, a connection id lists an
    instrument in the connection-to-instruments index if and only if the
    instrument lists that id in the instrument-to-connections index.  In the
    state so reached, for every connection and instrument: after
    [addSubscription] the connection's subscriptions contain the instrument;
    after [removeAllSubscriptions] its subscriptions are empty and no
    instrument's subscriber set contains its id. *)
Theorem subscription_indexes_agree (calls : list call) (client : Pointer)
    (instrument : string) :
  let ws := run calls WebSocketServer.init in
  indexes_agree ws
  ∧ instrument ∈ getSubscriptions client (addSubscription client instrument ws).1
  ∧ getSubscriptions client (removeAllSubscriptions client ws) = ∅
  ∧ (∀ i, getId client
          ∉ default ∅ (instrument_subscribers_
                         (removeAllSubscriptions client ws) !! i)).
Proof.
  intros ws.
  assert (indexes_agree ws) as Hagree by apply run_agree, init_agree.
  split; [done|]. split.
  { unfold getSubscriptions. simpl. rewrite lookup_insert_eq. simpl. set_solver. }
  split.
  { unfold getSubscriptions. simpl. by rewrite lookup_delete_eq. }
  intros i Hin.
  apply (removeAllSubscriptions_agree client ws Hagree) in Hin.
  simpl in Hin. rewrite lookup_delete_eq in Hin. set_solver.
Qed.

Lemma init_keyed : clients_keyed WebSocketServer.init.
Proof. intros client_id client. simpl. by rewrite lookup_empty. Qed.

Lemma onAccept_keyed (connection : Pointer) (ws : WebSocketServer.t) :
  clients_keyed ws → clients_keyed (onAccept connection ws).1.
Proof.
  intros Hkeyed client_id client. simpl.
  destruct (decide (getId connection = client_id)) as [<-|Hne].
  - rewrite lookup_insert_eq. by intros [= <-].
  - rewrite lookup_insert_ne by done. apply Hkeyed.
Qed.

Lemma onClose_keyed (connection : Pointer) (ws : WebSocketServer.t) :
  clients_keyed ws → clients_keyed (onClose connection ws).
Proof.
  intros Hkeyed client_id client. simpl.
  destruct (decide (getId connection = client_id)) as [<-|Hne].
  - by rewrite lookup_delete_eq.
  - rewrite lookup_delete_ne by done. apply Hkeyed.
Qed.

Lemma addSubscription_keyed (client : Pointer) (instrument : string)
    (ws : WebSocketServer.t) :
  clients_keyed ws → clients_keyed (addSubscription client instrument ws).1.
Proof. done. Qed.

Lemma in_order_sorted (s : gset string) : Sorted String.le (in_order s).
Proof. apply Sorted_merge_sort; apply _. Qed.

(** The sends of a broadcast whose id snapshot is taken in [ws] and whose
    connection lookup runs in a possibly later [ws']: they go to the
    connections that the ids subscribed in [ws] still resolve to in [ws']. *)
Lemma sends_resolved (instrument message : string)
    (ws ws' : WebSocketServer.t) (client : Pointer) (msg : string) :
  Send client msg
    ∈ (fun client => Send client message)
        <$> resolve_clients (subscriber_ids instrument ws) ws'
  ↔ msg = message
    ∧ ∃ client_id,
        client_id ∈ default ∅ (instrument_subscribers_ ws !! instrument)
        ∧ clients_ ws' !! client_id = Some client.
Proof.
  unfold resolve_clients, subscriber_ids.
  rewrite list_elem_of_fmap. split.
  - intros (c & [= -> ->] & Hin).
    apply list_elem_of_omap in Hin as (client_id & Hid & Hclient).
    split; [done|]. exists client_id. split; [|done].
    destruct (instrument_subscribers_ ws !! instrument) as [ids|]; simpl.
    + by apply elem_of_in_order.
    + by apply not_elem_of_nil in Hid.
  - intros (-> & client_id & Hid & Hclient).
    exists client. split; [done|].
    apply list_elem_of_omap. exists client_id. split; [|done].
    destruct (instrument_subscribers_ ws !! instrument) as [ids|]; simpl in *.
    + by apply elem_of_in_order.
    + by apply not_elem_of_empty in Hid.
Qed.

(** C7. [broadcastToSubscribers] changes nothing in the broker and sends
    the message, and nothing else, to exactly the connections that an id in
    the instrument's subscriber set resolves to in the connection table; a
    subscribed id with no entry in the connection table causes no send and
    no failure.  With the connection table keyed by connection id, as
    [onAccept] fills it, a connection receives the message if and only if
    its id is subscribed to the instrument and it is the connection the
    table holds for that id; so no unsubscribed connection receives it. *)
Theorem broadcastToSubscribers_delivery (instrument message : string)
    (ws : WebSocketServer.t) :
  ∃ events : list event,
    broadcastToSubscribers instrument message ws = (ws, events)
    ∧ (∀ client msg,
         Send client msg ∈ events
         ↔ msg = message
           ∧ ∃ client_id,
               client_id ∈ default ∅ (instrument_subscribers_ ws !! instrument)
               ∧ clients_ ws !! client_id = Some client)
    ∧ (∀ client, Close client ∉ events)
    ∧ (length events
       ≤ base.size (default ∅ (instrument_subscribers_ ws !! instrument)))%nat
    ∧ (clients_keyed ws →
       ∀ client,
         Send client message ∈ events
         ↔ getId client ∈ default ∅ (instrument_subscribers_ ws !! instrument)
           ∧ clients_ ws !! getId client = Some client).
Proof.
  unfold broadcastToSubscribers. eexists. split; [reflexivity|].
  pose proof (sends_resolved instrument message ws ws) as Hsends.
  split_and!.
  - exact Hsends.
  - intros client Hin. apply list_elem_of_fmap in Hin as (c & Heq & _).
    discriminate Heq.
  - rewrite length_fmap. unfold resolve_clients, subscriber_ids.
    etrans; [apply length_omap_le|].
    destruct (instrument_subscribers_ ws !! instrument) as [ids|]; simpl;
      [|lia].
    unfold in_order. by rewrite merge_sort_Permutation.
  - intros Hkeyed client. rewrite Hsends. split.
    + intros (_ & client_id & Hid & Hclient).
      by rewrite (Hkeyed _ _ Hclient).
    + intros [Hid Hclient]. eauto.
Qed.

(** A broadcast for C7: two connected subscribers of the instrument, a
    subscriber id whose connection was never registered, and a connected
    client subscribed to another instrument only. *)
Lemma broadcastToSubscribers_delivery_witness :
  let alice := {| object := 1; getId := "00000000000000a1" |} in
  let bob := {| object := 2; getId := "00000000000000b2" |} in
  let gone := {| object := 3; getId := "00000000000000c3" |} in
  let other := {| object := 4; getId := "00000000000000d4" |} in
  let ws :=
    (addSubscription other "ETH-PERPETUAL"
       (addSubscription gone "BTC-PERPETUAL"
          (addSubscription bob "BTC-PERPETUAL"
             (addSubscription alice "BTC-PERPETUAL"
                (onAccept other
                   (onAccept bob
                      (onAccept alice WebSocketServer.init).1).1).1).1).1).1).1 in
  broadcastToSubscribers "BTC-PERPETUAL" "m" ws
    = (ws, [Send alice "m"; Send bob "m"])
  ∧ (Send alice "m" ∈ (broadcastToSubscribers "BTC-PERPETUAL" "m" ws).2)
  ∧ (Send gone "m" ∉ (broadcastToSubscribers "BTC-PERPETUAL" "m" ws).2)
  ∧ (Send other "m" ∉ (broadcastToSubscribers "BTC-PERPETUAL" "m" ws).2).
Proof.
  intros alice bob gone other ws.
  assert (clients_keyed ws) as Hkeyed.
  { repeat apply addSubscription_keyed. repeat apply onAccept_keyed.
    apply init_keyed. }
  assert (broadcastToSubscribers "BTC-PERPETUAL" "m" ws
          = (ws, [Send alice "m"; Send bob "m"])) as Hsent
    by (vm_compute; reflexivity).
  destruct (broadcastToSubscribers_delivery "BTC-PERPETUAL" "m" ws)
    as (events & Hrun & _ & _ & _ & Honly).
  specialize (Honly Hkeyed). rewrite Hrun. simpl.
  split; [by rewrite <- Hrun|]. split_and!.
  - apply Honly. split; [compute_done|reflexivity].
  - intros Hin. apply Honly in Hin as [_ Hclient]. discriminate Hclient.
  - intros Hin. apply Honly in Hin as [Hid _]. revert Hid. compute_done.
Defined.

End subscription_broker.

(** ** Order registry: queries, edge cases and invariants *)

Section order_registry_more.

Import OrderManager OrderQueries.

(** X1. [getOrder] never throws.  For an id that is not recorded it returns
    the sentinel: an order carrying the queried id, status REJECTED, the
    message "Order not found", an empty instrument and fill 0.0; for a
    recorded id it returns the recorded order. *)
Theorem getOrder_sentinel (junk : Order.t) (order_id : string)
    (om : OrderManager.t) :
  (∃ o, getOrder junk order_id om = Ok o)
  ∧ (∀ o, orders_ om !! order_id = Some o → getOrder junk order_id om = Ok o)
  ∧ (orders_ om !! order_id = None →
     ∃ o, getOrder junk order_id om = Ok o
          ∧ Order.order_id o = order_id
          ∧ Order.status o = Order.REJECTED
          ∧ Order.error_message o = "Order not found"
          ∧ Order.instrument o = ""
          ∧ Order.filled_amount o = 0%float).
Proof.
  split_and!.
  - destruct (orders_ om !! order_id) as [o|] eqn:Hid.
    + exists o. by apply getOrder_known.
    + unfold getOrder. rewrite Hid.
      rewrite bool_decide_eq_false_2 by (intros [? ?]; done). eauto.
  - intros o. apply getOrder_known.
  - intros Hid. unfold getOrder. rewrite Hid.
    rewrite bool_decide_eq_false_2 by (intros [? ?]; done).
    eexists. split; [reflexivity|]. by split_and!.
Qed.

Lemma getOrder_sentinel_witness :
  ∃ o, getOrder (Order.mk "x" "y" Order.SELL Order.MARKET 1 2 3 Order.FILLED
                   "z" 4 5) "order_7" OrderManager.init = Ok o
       ∧ Order.order_id o = "order_7"
       ∧ Order.status o = Order.REJECTED
       ∧ Order.error_message o = "Order not found"
       ∧ Order.instrument o = ""
       ∧ Order.filled_amount o = 0%float.
Proof.
  apply (getOrder_sentinel _ "order_7" OrderManager.init). reflexivity.
Defined.

(** X2. A successful [modifyOrder] on a recorded order overwrites its price
    and amount and sets its update time to the clock reading; the fill, the
    status and every other member stay, no other order or position is
    touched, and one modify request is issued. *)
Theorem modifyOrder_overwrites (now : Z) (order_id : string)
    (new_price new_amount : float) (o : Order.t) (om : OrderManager.t) :
  orders_ om !! order_id = Some o →
  ∃ (om' : OrderManager.t) (o' : Order.t),
    modifyOrder true now order_id new_price new_amount om
      = (true, om', [ApiModifyOrder order_id new_price new_amount])
    ∧ orders_ om' !! order_id = Some o'
    ∧ (∀ other, other ≠ order_id → orders_ om' !! other = orders_ om !! other)
    ∧ positions_ om' = positions_ om
    ∧ Order.price o' = new_price
    ∧ Order.amount o' = new_amount
    ∧ Order.last_update_timestamp o' = now
    ∧ Order.filled_amount o' = Order.filled_amount o
    ∧ Order.status o' = Order.status o
    ∧ Order.creation_timestamp o' = Order.creation_timestamp o
    ∧ Order.order_id o' = Order.order_id o
    ∧ Order.instrument o' = Order.instrument o
    ∧ Order.side o' = Order.side o
    ∧ Order.type o' = Order.type o
    ∧ Order.error_message o' = Order.error_message o.
Proof.
  intros Hknown. unfold modifyOrder. rewrite Hknown.
  eexists _, _. split; [reflexivity|]. simpl.
  split; [apply lookup_insert_eq|]. split.
  { intros other Hother. by rewrite lookup_insert_ne. }
  by split_and!.
Qed.

(** The modification of the repository's test, on an order that has
    already been partly filled. *)
Lemma modifyOrder_overwrites_witness :
  let om :=
    (onOrderUpdate 105
       (Some (JObject [("filled_amount", JNumber 1);
                       ("order_id", JString "order_100");
                       ("state", JString "untriggered")]))
       (placeOrder 100 101 "BTC-PERPETUAL" Order.BUY 50000 2 Order.LIMIT
          OrderManager.init).1.2).1 in
  ∃ om' o',
    modifyOrder true 110 "order_100" 51000 4 om
      = (true, om', [ApiModifyOrder "order_100" 51000 4])
    ∧ orders_ om' !! "order_100" = Some o'
    ∧ Order.price o' = 51000%float
    ∧ Order.amount o' = 4%float
    ∧ Order.filled_amount o' = 1%float
    ∧ Order.status o' = Order.PARTIALLY_FILLED.
Proof.
  intros om.
  destruct (orders_ om !! "order_100") as [o|] eqn:Hknown;
    [|vm_compute in Hknown; discriminate].
  destruct (modifyOrder_overwrites 110 "order_100" 51000 4 o om Hknown)
    as (om' & o' & Hrun & Hlook & _ & _ & Hp & Ha & _ & Hf & Hs & _).
  exists om', o'. split_and!; try done.
  - rewrite Hf. vm_compute in Hknown. by injection Hknown as <-.
  - rewrite Hs. vm_compute in Hknown. by injection Hknown as <-.
Defined.

(** X3. When the exchange reports failure, or the id is not recorded,
    [cancelOrder] and [modifyOrder] leave the registry exactly as it was;
    the request is issued all the same and its result is returned. *)
Theorem cancel_modify_without_effect (success : bool) (now : Z)
    (order_id : string) (new_price new_amount : float) (om : OrderManager.t) :
  success = false ∨ orders_ om !! order_id = None →
  cancelOrder success now order_id om
    = (success, om, [ApiCancelOrder order_id])
  ∧ modifyOrder success now order_id new_price new_amount om
    = (success, om, [ApiModifyOrder order_id new_price new_amount]).
Proof.
  unfold cancelOrder, modifyOrder.
  intros [-> | ->]; [done|]. by destruct success.
Qed.

Lemma cancel_modify_without_effect_witness :
  let om :=
    (placeOrder 100 101 "BTC-PERPETUAL" Order.BUY 50000 2 Order.LIMIT
       OrderManager.init).1.2 in
  cancelOrder false 110 "order_100" om
    = (false, om, [ApiCancelOrder "order_100"])
  ∧ cancelOrder true 110 "order_999" om
    = (true, om, [ApiCancelOrder "order_999"]).
Proof.
  intros om. split.
  - apply (cancel_modify_without_effect false 110 "order_100" 0 0 om).
    by left.
  - apply (cancel_modify_without_effect true 110 "order_999" 0 0 om).
    right. reflexivity.
Defined.

Lemma foldl_insert_reverse (pairs : list (string * float))
    (positions : gmap string float) :
  foldl (fun m entry => <[entry.1 := entry.2]> m) positions pairs
    = list_to_map (reverse pairs) ∪ positions.
Proof.
  induction pairs as [|[instrument size] pairs IH] using rev_ind.
  - simpl. by rewrite (left_id_L ∅ (∪)).
  - rewrite foldl_snoc, IH, reverse_snoc. simpl.
    by rewrite insert_union_l.
Qed.

Lemma populate_ill_typed (good : list json) (pairs : list (string * float))
    (bad : json) (rest : list json) (positions : gmap string float) :
  Forall2 position_entry good pairs →
  ill_typed_position bad →
  populate (good ++ bad :: rest) positions
    = (foldl (fun m entry => <[entry.1 := entry.2]> m) positions pairs,
       Some type_error).
Proof.
  intros Hgood Hbad. revert positions.
  induction Hgood as [|position [instrument size] good pairs Hentry _ IH];
    intros positions.
  - simpl. destruct bad as [| | | | |members]; simpl in *; try done.
    destruct (assoc "instrument_name" members) as [[]|]; simpl in *; try done.
    destruct (assoc "size" members) as [[]|]; simpl in *; done.
  - destruct Hentry as (members & -> & Hname & Hsize). simpl in *.
    rewrite Hname, Hsize. simpl. apply IH.
Qed.

(** X4. A position update is not atomic.  When an array element cannot be
    read (wrong type), the update stops there: the table that was held is
    gone, the table now holds exactly the pairs that precede the bad element
    (the last one winning for a repeated instrument), the elements after it
    are not applied, and the type error is logged. *)
Theorem onPositionUpdate_stops_at_ill_typed (om : OrderManager.t)
    (good : list json) (pairs : list (string * float)) (bad : json)
    (rest : list json) :
  Forall2 position_entry good pairs →
  ill_typed_position bad →
  ∃ om' : OrderManager.t,
    onPositionUpdate (Some (JArray (good ++ bad :: rest))) om
      = (om', Some type_error)
    ∧ getCurrentPositions om' = list_to_map (reverse pairs)
    ∧ (∀ instrument, instrument ∉ pairs.*1 →
         getCurrentPositions om' !! instrument = None)
    ∧ orders_ om' = orders_ om.
Proof.
  intros Hgood Hbad. unfold onPositionUpdate. simpl.
  rewrite (populate_ill_typed _ _ _ _ _ Hgood Hbad).
  rewrite foldl_insert_reverse, (right_id_L ∅ (∪)).
  eexists. split; [reflexivity|]. simpl. split; [done|]. split; [|done].
  intros instrument Hnot. apply not_elem_of_list_to_map_1.
  by rewrite fmap_reverse, elem_of_reverse.
Qed.

Lemma onPositionUpdate_stops_at_ill_typed_witness :
  let om :=
    with_positions (<["SOL-PERPETUAL" := 3%float]> ∅) OrderManager.init in
  let doc :=
    JArray [JObject [("instrument_name", JString "BTC-PERPETUAL");
                     ("size", JNumber 0.5)];
            JString "garbage";
            JObject [("instrument_name", JString "ETH-PERPETUAL");
                     ("size", JNumber (-1))]] in
  ∃ om', onPositionUpdate (Some doc) om = (om', Some type_error)
         ∧ getCurrentPositions om' !! "BTC-PERPETUAL" = Some 0.5%float
         ∧ getCurrentPositions om' !! "ETH-PERPETUAL" = None
         ∧ getCurrentPositions om' !! "SOL-PERPETUAL" = None.
Proof.
  intros om doc.
  destruct (onPositionUpdate_stops_at_ill_typed om
              [JObject [("instrument_name", JString "BTC-PERPETUAL");
                        ("size", JNumber 0.5)]]
              [("BTC-PERPETUAL", 0.5%float)]
              (JString "garbage")
              [JObject [("instrument_name", JString "ETH-PERPETUAL");
                        ("size", JNumber (-1))]])
    as (om' & Hrun & Htable & _ & _).
  - repeat constructor. eexists. split_and!; reflexivity.
  - exact I.
  - exists om'. split; [exact Hrun|]. rewrite Htable. by split_and!.
Defined.

(** X5. When a well-formed position update names an instrument more than
    once, the last pair for it is the one kept; the table holds one entry
    per distinct instrument of the update and nothing else. *)
Theorem onPositionUpdate_last_wins (om : OrderManager.t) (elems : list json)
    (pairs : list (string * float)) :
  Forall2 position_entry elems pairs →
  ∃ om' : OrderManager.t,
    onPositionUpdate (Some (JArray elems)) om = (om', None)
    ∧ getCurrentPositions om' = list_to_map (reverse pairs)
    ∧ dom (getCurrentPositions om') = list_to_set pairs.*1
    ∧ (∀ before instrument size after,
         pairs = before ++ (instrument, size) :: after →
         instrument ∉ after.*1 →
         getCurrentPositions om' !! instrument = Some size).
Proof.
  intros Hentries. unfold onPositionUpdate. simpl.
  rewrite (populate_entries _ _ _ Hentries).
  rewrite foldl_insert_reverse, (right_id_L ∅ (∪)).
  eexists. split; [reflexivity|]. simpl. split; [done|]. split.
  - rewrite dom_list_to_map_L, fmap_reverse.
    apply set_eq. intros x. rewrite !elem_of_list_to_set.
    by rewrite elem_of_reverse.
  - intros before instrument size after -> Hlast.
    rewrite reverse_app, reverse_cons, <- app_assoc. simpl.
    rewrite list_to_map_app, lookup_union_r.
    + by rewrite list_to_map_cons, lookup_insert_eq.
    + apply not_elem_of_list_to_map_1.
      by rewrite fmap_reverse, elem_of_reverse.
Qed.

(** An update that lists BTC-PERPETUAL twice: the second size is kept. *)
Lemma onPositionUpdate_last_wins_witness :
  let elems :=
    [JObject [("instrument_name", JString "BTC-PERPETUAL");
              ("size", JNumber 0.5)];
     JObject [("instrument_name", JString "ETH-PERPETUAL");
              ("size", JNumber (-1))];
     JObject [("instrument_name", JString "BTC-PERPETUAL");
              ("size", JNumber 2)]] in
  ∃ om', onPositionUpdate (Some (JArray elems)) OrderManager.init = (om', None)
         ∧ getCurrentPositions om' !! "BTC-PERPETUAL" = Some 2%float
         ∧ base.size (getCurrentPositions om') = 2%nat.
Proof.
  intros elems.
  destruct (onPositionUpdate_last_wins OrderManager.init elems
              [("BTC-PERPETUAL", 0.5%float); ("ETH-PERPETUAL", (-1)%float);
               ("BTC-PERPETUAL", 2%float)])
    as (om' & Hrun & Htable & _ & _).
  - repeat constructor; eexists; split_and!; reflexivity.
  - exists om'. split; [exact Hrun|]. rewrite Htable. by split_and!.
Defined.

Lemma length_omap_total {A B : Type} (f : A → option B) (l : list A) :
  (∀ x, x ∈ l → is_Some (f x)) → length (omap f l) = length l.
Proof.
  induction l as [|x l IH]; intros Htotal; csimpl; [done|].
  destruct (Htotal x) as [y ->]; [apply list_elem_of_here|]. csimpl.
  rewrite IH; [done|]. intros z Hz. apply Htotal. by apply list_elem_of_further.
Qed.

Lemma elem_of_in_key_order {A : Type} (m : gmap string A) (x : A) :
  x ∈ in_key_order m ↔ ∃ key, m !! key = Some x.
Proof.
  unfold in_key_order. rewrite list_elem_of_omap. split.
  - intros (key & _ & Hkey). eauto.
  - intros (key & Hkey). exists key. split; [|done].
    apply elem_of_in_order, elem_of_dom. eauto.
Qed.

Lemma length_in_key_order {A : Type} (m : gmap string A) :
  length (in_key_order m) = base.size m.
Proof.
  unfold in_key_order. rewrite length_omap_total.
  - unfold in_order. rewrite merge_sort_Permutation.
    by rewrite <- size_dom.
  - intros key Hkey. by apply elem_of_in_order, elem_of_dom in Hkey.
Qed.

Lemma sorted_newest_first (l : list Order.t) :
  StronglySorted (fun a b => newer b a = false) l →
  StronglySorted newest_first l.
Proof.
  induction 1 as [|a l _ IH Hall]; constructor; [done|].
  eapply Forall_impl; [exact Hall|].
  intros b Hb. unfold newer, newest_first in *. lia.
Qed.

Lemma merge_sort_newest_first_sorts : sorts_with newer merge_sort_newest_first.
Proof.
  assert (Transitive newest_first) by (intros a b c; unfold newest_first; lia).
  assert (Total newest_first) by (intros a b; unfold newest_first; lia).
  intros l. unfold merge_sort_newest_first. split.
  - apply merge_sort_Permutation.
  - pose proof (StronglySorted_merge_sort newest_first l) as Hsorted.
    induction Hsorted as [|a l' _ IH Hall]; constructor; [done|].
    eapply Forall_impl; [exact Hall|].
    intros b Hb. unfold newer, newest_first in *. lia.
Qed.

(** X6. Whatever [std::sort] does with orders of equal creation time,
    [getAllOrders] returns every recorded order and nothing else, one list
    element per registry entry, and no order precedes a newer one. *)
Theorem getAllOrders_newest_first (std_sort : list Order.t → list Order.t)
    (om : OrderManager.t) :
  sorts_with newer std_sort →
  (∀ o, o ∈ getAllOrders std_sort om ↔ ∃ order_id, orders_ om !! order_id = Some o)
  ∧ length (getAllOrders std_sort om) = base.size (orders_ om)
  ∧ StronglySorted newest_first (getAllOrders std_sort om).
Proof.
  intros Hsort. unfold getAllOrders.
  destruct (Hsort (in_key_order (orders_ om))) as [Hperm Hsorted].
  split_and!.
  - intros o. rewrite Hperm. apply elem_of_in_key_order.
  - rewrite Hperm. apply length_in_key_order.
  - by apply sorted_newest_first.
Qed.

Lemma getAllOrders_newest_first_witness :
  let om :=
    run [PlaceOrder 100 101 "BTC-PERPETUAL" Order.BUY 50000 2 Order.LIMIT;
         PlaceOrder 200 201 "ETH-PERPETUAL" Order.SELL 3000 1 Order.LIMIT;
         PlaceOrder 150 151 "SOL-PERPETUAL" Order.BUY 20 5 Order.MARKET]
      OrderManager.init in
  Order.order_id <$> getAllOrders merge_sort_newest_first om
    = ["order_200"; "order_150"; "order_100"]
  ∧ length (getAllOrders merge_sort_newest_first om) = base.size (orders_ om)
  ∧ StronglySorted newest_first (getAllOrders merge_sort_newest_first om).
Proof.
  intros om.
  destruct (getAllOrders_newest_first merge_sort_newest_first om
              merge_sort_newest_first_sorts) as (_ & Hlen & Hsorted).
  split; [vm_compute; reflexivity|]. by split.
Defined.

(** X7. [getOpenOrders] returns exactly the recorded orders whose status is
    OPEN or PARTIALLY_FILLED, newest first; each of them is also returned by
    [getAllOrders]. *)
Theorem getOpenOrders_exactly_open (std_sort : list Order.t → list Order.t)
    (om : OrderManager.t) :
  sorts_with newer std_sort →
  (∀ o, o ∈ getOpenOrders std_sort om
        ↔ (∃ order_id, orders_ om !! order_id = Some o)
          ∧ (Order.status o = Order.OPEN
             ∨ Order.status o = Order.PARTIALLY_FILLED))
  ∧ (∀ o, o ∈ getOpenOrders std_sort om → o ∈ getAllOrders std_sort om)
  ∧ StronglySorted newest_first (getOpenOrders std_sort om).
Proof.
  intros Hsort. unfold getOpenOrders, getAllOrders.
  destruct (Hsort (List.filter is_open (in_key_order (orders_ om))))
    as [Hperm Hsorted].
  destruct (Hsort (in_key_order (orders_ om))) as [Hall _].
  assert (∀ o, o ∈ List.filter is_open (in_key_order (orders_ om))
               ↔ o ∈ in_key_order (orders_ om) ∧ is_open o = true) as Hfilter.
  { intros o. rewrite !list_elem_of_In. apply filter_In. }
  split_and!.
  - intros o. rewrite Hperm, Hfilter, elem_of_in_key_order.
    unfold is_open. destruct (Order.status o); naive_solver.
  - intros o. rewrite Hperm, Hall, Hfilter. tauto.
  - by apply sorted_newest_first.
Qed.

Lemma getOpenOrders_exactly_open_witness :
  let om :=
    run [PlaceOrder 100 101 "BTC-PERPETUAL" Order.BUY 50000 2 Order.LIMIT;
         PlaceOrder 200 201 "ETH-PERPETUAL" Order.SELL 3000 1 Order.LIMIT;
         PlaceOrder 150 151 "SOL-PERPETUAL" Order.BUY 20 5 Order.MARKET;
         CancelOrder true 300 "order_200"]
      OrderManager.init in
  Order.order_id <$> getOpenOrders merge_sort_newest_first om
    = ["order_150"; "order_100"]
  ∧ StronglySorted newest_first (getOpenOrders merge_sort_newest_first om).
Proof.
  intros om.
  destruct (getOpenOrders_exactly_open merge_sort_newest_first om
              merge_sort_newest_first_sorts) as (_ & _ & Hsorted).
  split; [vm_compute; reflexivity|done].
Defined.

Lemma apply_status_not_pending (data : json) (status : string)
    (filled : float) (order : Order.t) :
  Order.status order ≠ Order.PENDING →
  Order.status (apply_status data status filled order).1 ≠ Order.PENDING.
Proof.
  intros Hstatus. unfold apply_status.
  repeat (case_match; simpl; try done).
Qed.

(** What one call can do to a recorded order: leave it, record a fresh OPEN
    order under its own id, or change an order in place without touching
    its id and without making it PENDING. *)
Lemma step_orders (om : OrderManager.t) (c : call) (order_id : string)
    (o' : Order.t) :
  orders_ (step om c) !! order_id = Some o' →
  orders_ om !! order_id = Some o'
  ∨ (Order.order_id o' = order_id ∧ Order.status o' = Order.OPEN)
  ∨ (∃ o, orders_ om !! order_id = Some o
          ∧ Order.order_id o' = Order.order_id o
          ∧ (Order.status o ≠ Order.PENDING →
             Order.status o' ≠ Order.PENDING)).
Proof.
  destruct c as [t_id t_created instrument side price amount type
                |success now id|success now id new_price new_amount
                |now order_data|position_data]; simpl.
  - destruct (decide ("order_" +:+ to_string t_id = order_id)) as [<-|Hne].
    + rewrite lookup_insert_eq. intros [= <-]. right; left. done.
    + rewrite lookup_insert_ne by done. auto.
  - destruct success; [|auto].
    destruct (orders_ om !! id) as [o|] eqn:Hid; [|auto]. simpl.
    destruct (decide (id = order_id)) as [<-|Hne].
    + rewrite lookup_insert_eq. intros [= <-]. right; right.
      exists o. by split_and!.
    + rewrite lookup_insert_ne by done. auto.
  - destruct success; [|auto].
    destruct (orders_ om !! id) as [o|] eqn:Hid; [|auto]. simpl.
    destruct (decide (id = order_id)) as [<-|Hne].
    + rewrite lookup_insert_eq. intros [= <-]. right; right.
      exists o. by split_and!.
    + rewrite lookup_insert_ne by done. auto.
  - unfold onOrderUpdate.
    destruct order_data as [data|]; [|auto].
    destruct (decode_order_update data) as [[[id status] filled]|e]; [|auto].
    destruct (orders_ om !! id) as [o|] eqn:Hid; [|auto].
    pose proof (apply_status_frame data status filled
                  (Order.set_last_update_timestamp now
                     (Order.set_filled_amount filled o))) as Hframe.
    pose proof (apply_status_not_pending data status filled
                  (Order.set_last_update_timestamp now
                     (Order.set_filled_amount filled o))) as Hpending.
    destruct (apply_status data status filled _) as [order caught].
    simpl in Hframe, Hpending. destruct Hframe as (Hsame & _).
    simpl.
    destruct (decide (id = order_id)) as [<-|Hne].
    + rewrite lookup_insert_eq. intros [= <-]. right; right.
      exists o. by split_and!.
    + rewrite lookup_insert_ne by done. auto.
  - unfold onPositionUpdate.
    destruct position_data as [data|]; [|auto].
    destruct (is_array data); [|auto].
    destruct (populate _ _). auto.
Qed.

Lemma run_orders (calls : list call) :
  orders_keyed (run calls OrderManager.init)
  ∧ none_pending (run calls OrderManager.init).
Proof.
  induction calls as [|c calls [Hkeyed Hpending]] using rev_ind.
  - split; intros order_id o; simpl; by rewrite lookup_empty.
  - rewrite run_snoc. split; intros order_id o' Hstep;
      apply step_orders in Hstep
        as [Hsame|[[Hid Hopen]|(o & Hold & Hid & Hstatus)]].
    + by apply (Hkeyed _ _ Hsame).
    + done.
    + rewrite Hid. by apply (Hkeyed _ _ Hold).
    + by apply (Hpending _ _ Hsame).
    + by rewrite Hopen.
    + apply Hstatus. by apply (Hpending _ _ Hold).
Qed.

(** X8. In every registry reached from a new one by any calls, each order
    is recorded under its own id: the [order_id] member of the order that
    [getOrder] returns for a recorded id is that id. *)
Theorem registry_keyed_by_id (calls : list call) (order_id : string)
    (o : Order.t) (junk : Order.t) :
  orders_ (run calls OrderManager.init) !! order_id = Some o →
  Order.order_id o = order_id
  ∧ getOrder junk order_id (run calls OrderManager.init) = Ok o.
Proof.
  intros Hknown. split.
  - by apply (proj1 (run_orders calls) order_id o).
  - by apply getOrder_known.
Qed.

Lemma registry_keyed_by_id_witness :
  let calls :=
    [PlaceOrder 100 101 "BTC-PERPETUAL" Order.BUY 50000 2 Order.LIMIT;
     ModifyOrder true 120 "order_100" 51000 4;
     PlaceOrder 100 130 "ETH-PERPETUAL" Order.SELL 3000 1 Order.LIMIT] in
  ∃ o, orders_ (run calls OrderManager.init) !! "order_100" = Some o
       ∧ Order.order_id o = "order_100"
       ∧ Order.instrument o = "ETH-PERPETUAL".
Proof.
  intros calls.
  destruct (orders_ (run calls OrderManager.init) !! "order_100") as [o|]
    eqn:Hknown; [|vm_compute in Hknown; discriminate].
  exists o. split; [done|].
  destruct (registry_keyed_by_id calls "order_100" o o Hknown) as [Hid _].
  split; [done|]. vm_compute in Hknown. by injection Hknown as <-.
Defined.

(** X9. No call ever leaves a recorded order in the PENDING state: orders
    are recorded as OPEN and no transition leads to PENDING. *)
Theorem registry_never_pending (calls : list call) (order_id : string)
    (o : Order.t) :
  orders_ (run calls OrderManager.init) !! order_id = Some o →
  Order.status o ≠ Order.PENDING.
Proof. apply (proj2 (run_orders calls)). Qed.

Lemma registry_never_pending_witness :
  let calls :=
    [PlaceOrder 100 101 "BTC-PERPETUAL" Order.BUY 50000 2 Order.LIMIT;
     OnOrderUpdate 105
       (Some (JObject [("filled_amount", JNumber 0);
                       ("order_id", JString "order_100");
                       ("state", JString "pending")]))] in
  ∃ o, orders_ (run calls OrderManager.init) !! "order_100" = Some o
       ∧ Order.status o ≠ Order.PENDING.
Proof.
  intros calls.
  destruct (orders_ (run calls OrderManager.init) !! "order_100") as [o|]
    eqn:Hknown; [|vm_compute in Hknown; discriminate].
  exists o. split; [done|].
  exact (registry_never_pending calls "order_100" o Hknown).
Defined.

(** X10. The [catch] block of [onOrderUpdate] does not undo what was
    already written.  For a known order and a "rejected" update whose
    "error" member is present but is not a string, reading the message
    throws after the order was changed: the order keeps the new fill, the
    new update time and the status REJECTED, its error message stays as it
    was, and the type error is logged. *)
Theorem onOrderUpdate_rejected_ill_typed_error (now : Z)
    (members : list (string * json)) (error : json) (om : OrderManager.t)
    (order_id : string) (filled : float) (o : Order.t) :
  decode_order_update (JObject members) = Ok (order_id, "rejected", filled) →
  assoc "error" members = Some error →
  (∀ msg, error ≠ JString msg) →
  orders_ om !! order_id = Some o →
  ∃ o' : Order.t,
    onOrderUpdate now (Some (JObject members)) om
      = (with_orders (<[order_id := o']> (orders_ om)) om, Some type_error)
    ∧ Order.status o' = Order.REJECTED
    ∧ Order.error_message o' = Order.error_message o
    ∧ Order.filled_amount o' = filled
    ∧ Order.last_update_timestamp o' = now.
Proof.
  intros Hdecode Herror Hill Hknown.
  rewrite (onOrderUpdate_known _ _ _ _ _ _ _ Hdecode Hknown).
  unfold apply_status. simpl. rewrite Herror.
  rewrite bool_decide_eq_true_2 by eauto. simpl.
  destruct error; simpl; try (eexists; split; [reflexivity|]; by split_and!).
  by destruct (Hill s).
Qed.

Lemma onOrderUpdate_rejected_ill_typed_error_witness :
  let om :=
    (placeOrder 100 101 "BTC-PERPETUAL" Order.BUY 50000 2 Order.LIMIT
       OrderManager.init).1.2 in
  let members :=
    [("error", JNumber 13); ("filled_amount", JNumber 0);
     ("order_id", JString "order_100"); ("state", JString "rejected")] in
  ∃ o', (onOrderUpdate 105 (Some (JObject members)) om).2 = Some type_error
        ∧ orders_ (onOrderUpdate 105 (Some (JObject members)) om).1
            !! "order_100" = Some o'
        ∧ Order.status o' = Order.REJECTED
        ∧ Order.error_message o' = "".
Proof.
  intros om members.
  destruct (orders_ om !! "order_100") as [o|] eqn:Hknown;
    [|vm_compute in Hknown; discriminate].
  destruct (onOrderUpdate_rejected_ill_typed_error 105 members (JNumber 13) om
              "order_100" 0%float o eq_refl eq_refl ltac:(done) Hknown)
    as (o' & Hrun & Hstatus & Hmsg & _).
  exists o'. rewrite Hrun. simpl. rewrite lookup_insert_eq.
  split_and!; try done.
  rewrite Hmsg. vm_compute in Hknown. by injection Hknown as <-.
Defined.

(** X11. The terminal states are not guarded.  After a successful
    [cancelOrder] the order is CANCELLED; an "open" update for the same id
    that arrives afterwards makes it OPEN again, with the fill the update
    carries. *)
Theorem cancelled_order_reopens (t1 t2 : Z) (data : json)
    (om : OrderManager.t) (order_id : string) (filled : float) (o : Order.t) :
  orders_ om !! order_id = Some o →
  decode_order_update data = Ok (order_id, "open", filled) →
  let om1 := (cancelOrder true t1 order_id om).1.2 in
  let om2 := (onOrderUpdate t2 (Some data) om1).1 in
  ∃ o1 o2 : Order.t,
    orders_ om1 !! order_id = Some o1
    ∧ Order.status o1 = Order.CANCELLED
    ∧ orders_ om2 !! order_id = Some o2
    ∧ Order.status o2 = Order.OPEN
    ∧ Order.filled_amount o2 = filled
    ∧ Order.last_update_timestamp o2 = t2.
Proof.
  intros Hknown Hdecode om1 om2.
  assert (orders_ om1
            !! order_id
          = Some (Order.set_last_update_timestamp t1
                    (Order.set_status Order.CANCELLED o))) as Hom1.
  { subst om1. unfold cancelOrder. rewrite Hknown. simpl.
    apply lookup_insert_eq. }
  eexists _, _. split; [exact Hom1|]. split; [done|].
  subst om2. rewrite (onOrderUpdate_known _ _ _ _ _ _ _ Hdecode Hom1).
  simpl. rewrite lookup_insert_eq. by split_and!.
Qed.

Lemma cancelled_order_reopens_witness :
  let om :=
    (placeOrder 100 101 "BTC-PERPETUAL" Order.BUY 50000 2 Order.LIMIT
       OrderManager.init).1.2 in
  let data :=
    JObject [("filled_amount", JNumber 1); ("order_id", JString "order_100");
             ("state", JString "open")] in
  ∃ o2,
    orders_ (onOrderUpdate 120 (Some data)
               (cancelOrder true 110 "order_100" om).1.2).1 !! "order_100"
      = Some o2
    ∧ Order.status o2 = Order.OPEN
    ∧ Order.filled_amount o2 = 1%float.
Proof.
  intros om data.
  destruct (orders_ om !! "order_100") as [o|] eqn:Hknown;
    [|vm_compute in Hknown; discriminate].
  destruct (cancelled_order_reopens 110 120 data om "order_100" 1%float o
              Hknown eq_refl) as (o1 & o2 & _ & _ & Hom2 & Hopen & Hfill & _).
  exists o2. by split_and!.
Defined.

(** X12. The open-order query follows placements and cancellations.  In a
    registry reached from a new one: the order that [placeOrder] records is
    returned by [getOpenOrders] right away; after a successful [cancelOrder]
    of a recorded id, [getOpenOrders] returns no order with that id while
    [getAllOrders] still returns it, as CANCELLED. *)
Theorem open_orders_follow_lifecycle (std_sort : list Order.t → list Order.t)
    (calls : list call) :
  sorts_with newer std_sort →
  let om := run calls OrderManager.init in
  (∀ t_id t_created instrument side price amount type,
     let placed :=
       placeOrder t_id t_created instrument side price amount type om in
     ∃ o, o ∈ getOpenOrders std_sort placed.1.2
          ∧ Order.order_id o = placed.1.1)
  ∧ (∀ now order_id,
       is_Some (orders_ om !! order_id) →
       let om' := (cancelOrder true now order_id om).1.2 in
       (∀ o, o ∈ getOpenOrders std_sort om' → Order.order_id o ≠ order_id)
       ∧ ∃ o, o ∈ getAllOrders std_sort om'
              ∧ Order.order_id o = order_id
              ∧ Order.status o = Order.CANCELLED).
Proof.
  intros Hsort om. split.
  - intros t_id t_created instrument side price amount type placed.
    eexists. split.
    + apply (getOpenOrders_exactly_open std_sort _ Hsort). split.
      * exists placed.1.1. subst placed. simpl. apply lookup_insert_eq.
      * by left.
    + done.
  - intros now order_id [o Hknown] om'.
    assert (orders_keyed om') as Hkeyed.
    { pose proof (proj1 (run_orders (calls ++ [CancelOrder true now order_id])))
        as Hrun.
      by rewrite run_snoc in Hrun. }
    assert (orders_ om'
              !! order_id
            = Some (Order.set_last_update_timestamp now
                      (Order.set_status Order.CANCELLED o))) as Hcancelled.
    { subst om'. unfold cancelOrder. fold om. rewrite Hknown. simpl.
      apply lookup_insert_eq. }
    split.
    + intros o' Hopen Hid.
      apply (getOpenOrders_exactly_open std_sort _ Hsort) in Hopen
        as [[key Hkey] Hstatus].
      assert (key = order_id) as ->.
      { rewrite <- Hid. symmetry. by apply (Hkeyed key o'). }
      rewrite Hcancelled in Hkey. injection Hkey as <-.
      by destruct Hstatus.
    + eexists. split.
      * apply (getAllOrders_newest_first std_sort _ Hsort). eauto.
      * simpl. split; [|done].
        by apply (proj1 (run_orders calls) order_id o).
Qed.

Lemma open_orders_follow_lifecycle_witness :
  let om :=
    run [PlaceOrder 100 101 "BTC-PERPETUAL" Order.BUY 50000 2 Order.LIMIT]
      OrderManager.init in
  let om' := (cancelOrder true 110 "order_100" om).1.2 in
  (∀ o, o ∈ getOpenOrders merge_sort_newest_first om' →
        Order.order_id o ≠ "order_100")
  ∧ ∃ o, o ∈ getAllOrders merge_sort_newest_first om'
         ∧ Order.order_id o = "order_100"
         ∧ Order.status o = Order.CANCELLED.
Proof.
  intros om om'.
  destruct (open_orders_follow_lifecycle merge_sort_newest_first
              [PlaceOrder 100 101 "BTC-PERPETUAL" Order.BUY 50000 2
                 Order.LIMIT]
              merge_sort_newest_first_sorts) as [_ Hcancel].
  apply (Hcancel 110 "order_100"). vm_compute. eauto.
Defined.

End order_registry_more.

(** ** Order-book cache: subscriptions, lifecycle and ingestion edges *)

Section order_book_cache_more.

Import MarketDataClient MarketDataRun.

Lemma publish_frame (book : Orderbook.t) (md : MarketDataClient.t) :
  running_ (publish book md).1 = running_ md
  ∧ subscriptions_ (publish book md).1 = subscriptions_ md
  ∧ orderbook_callback_ (publish book md).1 = orderbook_callback_ md.
Proof. done. Qed.

Lemma fetchInitialOrderbook_frame (now : Z) (response : option json)
    (instrument : string) (md : MarketDataClient.t) :
  running_ (fetchInitialOrderbook now response instrument md).1.1 = running_ md
  ∧ subscriptions_ (fetchInitialOrderbook now response instrument md).1.1
    = subscriptions_ md
  ∧ orderbook_callback_ (fetchInitialOrderbook now response instrument md).1.1
    = orderbook_callback_ md.
Proof.
  unfold fetchInitialOrderbook.
  destruct response as [data|]; [|done].
  destruct (contains data "result"); [|done].
  destruct (subscript data "result") as [result|]; simpl; [|done].
  destruct (read_levels result "bids"); simpl; [|done].
  destruct (read_levels result "asks"); simpl; done.
Qed.

Lemma processMessage_frame (now : Z) (message : option json)
    (md : MarketDataClient.t) :
  running_ (processMessage now message md).1.1 = running_ md
  ∧ subscriptions_ (processMessage now message md).1.1 = subscriptions_ md
  ∧ orderbook_callback_ (processMessage now message md).1.1
    = orderbook_callback_ md.
Proof.
  unfold processMessage. destruct message as [data|]; [|done].
  destruct (ingest_shape data)
    as [[e Hthrow]|[Hskip|(instrument & bids & asks & Hpublish)]].
  - by rewrite Hthrow.
  - by rewrite Hskip.
  - by rewrite Hpublish.
Qed.

Lemma elem_of_erase_first (x y : string) (v : list string) :
  NoDup v → x ∈ erase_first y v ↔ x ≠ y ∧ x ∈ v.
Proof.
  induction v as [|z v IH]; intros Hnodup; simpl.
  - set_solver.
  - apply NoDup_cons in Hnodup as [Hz Hnodup].
    destruct (String.eqb_spec z y) as [->|Hne].
    + rewrite elem_of_cons. split.
      * intros Hin. split; [|by right]. by intros ->.
      * intros [Hne [->|Hin]]; done.
    + rewrite !elem_of_cons, IH by done. naive_solver.
Qed.

Lemma NoDup_erase_first (y : string) (v : list string) :
  NoDup v → NoDup (erase_first y v).
Proof.
  induction v as [|z v IH]; intros Hnodup; simpl; [done|].
  apply NoDup_cons in Hnodup as [Hz Hnodup].
  destruct (String.eqb_spec z y) as [->|Hne]; [done|].
  apply NoDup_cons. split; [|by apply IH].
  rewrite elem_of_erase_first by done. tauto.
Qed.

Lemma subscribe_subscriptions (now : Z) (response : option json)
    (instrument : string) (md : MarketDataClient.t) :
  subscriptions_ (subscribe now response instrument md).1.1
  = if bool_decide (instrument ∈ subscriptions_ md) then subscriptions_ md
    else subscriptions_ md ++ [instrument].
Proof.
  unfold subscribe. case_bool_decide; [done|]. simpl.
  destruct (running_ md); [|done].
  pose proof (fetchInitialOrderbook_frame now response instrument
                (with_subscriptions (subscriptions_ md ++ [instrument]) md))
    as (_ & Hsubs & _).
  destruct (fetchInitialOrderbook _ _ _ _) as [[md' events] caught].
  exact Hsubs.
Qed.

Lemma unsubscribe_subscriptions (instrument : string) (md : MarketDataClient.t) :
  subscriptions_ (unsubscribe instrument md).1
  = if bool_decide (instrument ∈ subscriptions_ md)
    then erase_first instrument (subscriptions_ md)
    else subscriptions_ md.
Proof.
  unfold unsubscribe. case_bool_decide; [|done]. simpl.
  by destruct (running_ md).
Qed.

Lemma step_NoDup (md : MarketDataClient.t) (c : call) :
  NoDup (subscriptions_ md) → NoDup (subscriptions_ (step md c)).
Proof.
  intros Hnodup.
  destruct c as [| |now response instrument|instrument| |now message]; simpl.
  - unfold start. by destruct (running_ md).
  - unfold stop. by destruct (running_ md).
  - rewrite subscribe_subscriptions. case_bool_decide; [done|].
    apply NoDup_app. split_and!; [done| |apply NoDup_singleton].
    intros x Hx Hin. apply list_elem_of_singleton in Hin as ->. done.
  - rewrite unsubscribe_subscriptions. case_bool_decide; [|done].
    by apply NoDup_erase_first.
  - done.
  - by rewrite (proj1 (proj2 (processMessage_frame now message md))).
Qed.

Lemma run_NoDup (calls : list call) :
  NoDup (subscriptions_ (run calls MarketDataClient.init)).
Proof.
  induction calls as [|c calls IH] using rev_ind.
  - apply NoDup_nil_2.
  - unfold run. rewrite foldl_snoc. by apply step_NoDup.
Qed.

(** X13. The subscription set of a client reached from a new one by any
    calls never lists an instrument twice, and it tracks the calls:
    after [subscribe] an instrument is listed if and only if it is the
    subscribed one or was listed before; after [unsubscribe] if and only if
    it is not the unsubscribed one and was listed before. *)
Theorem subscription_set_tracks_calls (calls : list call)
    (instrument other : string) (now : Z) (response : option json) :
  let md := run calls MarketDataClient.init in
  NoDup (getSubscribedInstruments md)
  ∧ (other ∈ getSubscribedInstruments (subscribe now response instrument md).1.1
     ↔ other = instrument ∨ other ∈ getSubscribedInstruments md)
  ∧ (other ∈ getSubscribedInstruments (unsubscribe instrument md).1
     ↔ other ≠ instrument ∧ other ∈ getSubscribedInstruments md).
Proof.
  intros md. pose proof (run_NoDup calls) as Hnodup. fold md in Hnodup.
  unfold getSubscribedInstruments. split; [done|]. split.
  - rewrite subscribe_subscriptions. case_bool_decide.
    + naive_solver.
    + rewrite elem_of_app, list_elem_of_singleton. tauto.
  - rewrite unsubscribe_subscriptions. case_bool_decide.
    + by apply elem_of_erase_first.
    + naive_solver.
Qed.

(** X14. A repeated [subscribe] does nothing at all: once an instrument
    has been subscribed, a further [subscribe] for it returns the client
    unchanged and issues neither a snapshot request nor a channel
    subscription, whatever became of the first snapshot. *)
Theorem subscribe_twice (now now' : Z) (response response' : option json)
    (instrument : string) (md : MarketDataClient.t) :
  let md1 := (subscribe now response instrument md).1.1 in
  subscribe now' response' instrument md1 = (md1, [], None).
Proof.
  intros md1.
  assert (instrument ∈ subscriptions_ md1) as Hin.
  { subst md1. rewrite subscribe_subscriptions. case_bool_decide; [done|].
    apply elem_of_app. right. apply list_elem_of_here. }
  unfold subscribe at 1. by rewrite bool_decide_eq_true_2.
Qed.

(** X15. [start] and [stop] are idempotent and touch neither the
    subscription set nor the cache.  [start] on a stopped client opens the
    socket and replays one channel subscription per subscribed instrument,
    in order; [stop] on a running client issues the matching
    unsubscriptions and closes the socket; a second [start], or a second
    [stop], changes nothing and issues nothing. *)
Theorem start_stop_lifecycle (md : MarketDataClient.t) :
  running_ (start md).1 = true
  ∧ running_ (stop md).1 = false
  ∧ start (start md).1 = ((start md).1, [])
  ∧ stop (stop md).1 = ((stop md).1, [])
  ∧ (running_ md = false →
     (start md).2
     = ConnectWebSocket :: (SubscribeToOrderbook <$> getSubscribedInstruments md))
  ∧ (running_ md = true →
     (stop md).2
     = (UnsubscribeFromOrderbook <$> getSubscribedInstruments md)
       ++ [CloseWebSocket])
  ∧ subscriptions_ (start md).1 = subscriptions_ md
  ∧ subscriptions_ (stop md).1 = subscriptions_ md
  ∧ orderbooks_ (start md).1 = orderbooks_ md
  ∧ orderbooks_ (stop md).1 = orderbooks_ md.
Proof.
  unfold start, stop, getSubscribedInstruments.
  destruct (running_ md) eqn:Hrunning; simpl; rewrite ?Hrunning;
    by split_and!.
Qed.

Lemma start_stop_lifecycle_witness :
  let md :=
    run [Subscribe 1 None "BTC-PERPETUAL"; Subscribe 2 None "ETH-PERPETUAL"]
      MarketDataClient.init in
  (start md).2
  = [ConnectWebSocket; SubscribeToOrderbook "BTC-PERPETUAL";
     SubscribeToOrderbook "ETH-PERPETUAL"]
  ∧ (stop (start md).1).2
    = [UnsubscribeFromOrderbook "BTC-PERPETUAL";
       UnsubscribeFromOrderbook "ETH-PERPETUAL"; CloseWebSocket].
Proof.
  intros md. split.
  - apply (start_stop_lifecycle md). reflexivity.
  - apply (start_stop_lifecycle (start md).1). reflexivity.
Defined.

(** X16. [unsubscribe] evicts a cached book only for a subscribed
    instrument on a running client.  On a stopped client the book stays in
    the cache and [getOrderbook] keeps returning it; for an instrument that
    is not subscribed the call changes nothing and issues nothing, so a book
    cached for such an instrument cannot be removed this way. *)
Theorem unsubscribe_eviction (junk : Z) (instrument : string)
    (md : MarketDataClient.t) :
  (instrument ∈ getSubscribedInstruments md → running_ md = true →
   ∃ md', unsubscribe instrument md
            = (md', [UnsubscribeFromOrderbook instrument])
          ∧ orderbooks_ md' = delete instrument (orderbooks_ md)
          ∧ ∃ book, getOrderbook junk instrument md' = (Ok book, md')
                    ∧ Orderbook.bids book = [] ∧ Orderbook.asks book = [])
  ∧ (instrument ∈ getSubscribedInstruments md → running_ md = false →
     ∃ md', unsubscribe instrument md = (md', [])
            ∧ orderbooks_ md' = orderbooks_ md
            ∧ getOrderbook junk instrument md'
              = ((getOrderbook junk instrument md).1, md'))
  ∧ (instrument ∉ getSubscribedInstruments md →
     unsubscribe instrument md = (md, [])).
Proof.
  unfold unsubscribe, getSubscribedInstruments. split_and!.
  - intros Hin Hrunning. rewrite bool_decide_eq_true_2 by done. simpl.
    rewrite Hrunning. eexists. split; [reflexivity|]. simpl.
    split; [done|]. unfold getOrderbook. simpl.
    rewrite lookup_delete_eq.
    rewrite bool_decide_eq_false_2 by (intros [? ?]; done). eauto.
  - intros Hin Hrunning. rewrite bool_decide_eq_true_2 by done. simpl.
    rewrite Hrunning. eexists. split; [reflexivity|]. simpl.
    split; [done|]. unfold getOrderbook. simpl. by case_bool_decide.
  - intros Hout. by rewrite bool_decide_eq_false_2.
Qed.

Lemma unsubscribe_eviction_witness :
  let notification :=
    Some (JObject
      [("method", JString "subscription");
       ("params",
        JObject [("channel", JString "book.BTC-PERPETUAL.none.10.100ms");
                 ("data",
                  JObject [("asks", JArray [JArray [JNumber 50001; JNumber 2]]);
                           ("bids", JArray [JArray [JNumber 50000; JNumber 1]])])])]) in
  let md :=
    run [Subscribe 1 None "BTC-PERPETUAL"; Start; ProcessMessage 5 notification;
         Stop] MarketDataClient.init in
  ∃ md', unsubscribe "BTC-PERPETUAL" md = (md', [])
         ∧ ("BTC-PERPETUAL" ∉ getSubscribedInstruments md')
         ∧ ∃ book, getOrderbook 0 "BTC-PERPETUAL" md' = (Ok book, md')
                   ∧ Orderbook.bids book = [Orderbook.mkLevel 50000 1].
Proof.
  intros notification md.
  destruct (unsubscribe_eviction 0 "BTC-PERPETUAL" md) as (_ & Hstopped & _).
  destruct Hstopped as (md' & Hrun & Hbooks & Hget).
  - vm_compute. apply list_elem_of_here.
  - reflexivity.
  - exists md'. split; [done|]. split.
    + assert (md' = (unsubscribe "BTC-PERPETUAL" md).1) as -> by by rewrite Hrun.
      vm_compute. apply not_elem_of_nil.
    + rewrite Hget.
      assert ((getOrderbook 0 "BTC-PERPETUAL" md).1
              = Ok (Orderbook.mk "BTC-PERPETUAL" [Orderbook.mkLevel 50000 1]
                      [Orderbook.mkLevel 50001 2] 5)) as ->
        by (vm_compute; reflexivity).
      eexists. split; reflexivity.
Defined.



(** X18. Whatever arrives and however the callback ends,
    [processMessage] changes neither the running flag, nor the subscription
    set, nor the callback; it either changes nothing and calls nobody, or it
    replaces the book of one instrument by a book stamped with the clock
    reading and calls the callback, if one is registered, with that book.
    When it logs an exception of the decoding it has changed nothing and
    called nobody.  When the callback throws, the book is already stored and
    stays stored: an exception derived from [std::exception] is logged, and
    anything else leaves [processMessage] uncaught.  With a callback that
    returns, the state and the calls are those of [processMessage]. *)
Theorem processMessage_contained (callback : callback_end) (now : Z)
    (message : option json) (md : MarketDataClient.t) :
  ∃ (md' : MarketDataClient.t) (events : list event) (how : ending),
    processMessage_callback callback now message md = (md', events, how)
    ∧ running_ md' = running_ md
    ∧ subscriptions_ md' = subscriptions_ md
    ∧ orderbook_callback_ md' = orderbook_callback_ md
    ∧ (md', events) = (processMessage now message md).1
    ∧ (∀ e, how = Logged (Decoding e) →
            md' = md ∧ events = []
            ∧ (processMessage now message md).2 = Some e)
    ∧ (how = Logged FromCallback ∨ how = Escaped →
       (how = Logged FromCallback ↔ callback = ThrowsException)
       ∧ (how = Escaped ↔ callback = ThrowsOther)
       ∧ orderbook_callback_ md = true
       ∧ (processMessage now message md).2 = None
       ∧ ∃ book : Orderbook.t,
           Orderbook.timestamp book = now
           ∧ orderbooks_ md'
             = <[Orderbook.instrument book := book]> (orderbooks_ md)
           ∧ events = [OrderbookCallback book])
    ∧ (how = Quiet →
       (processMessage now message md).2 = None
       ∧ ((md' = md ∧ events = [])
          ∨ (callback = Returns ∨ orderbook_callback_ md = false)
            ∧ ∃ book : Orderbook.t,
                Orderbook.timestamp book = now
                ∧ orderbooks_ md'
                  = <[Orderbook.instrument book := book]> (orderbooks_ md)
                ∧ events
                  = if orderbook_callback_ md then [OrderbookCallback book]
                    else [])).
Proof.
  unfold processMessage_callback, processMessage.
  destruct message as [data|]; last first.
  { eexists _, _, _. split; [reflexivity|]. split_and!; try done.
    - by intros e [= <-].
    - by intros [?|?]. }
  destruct (ingest_shape data)
    as [[e Hthrow]|[Hskip|(instrument & bids & asks & Hpublish)]].
  - rewrite Hthrow. eexists _, _, _. split; [reflexivity|].
    split_and!; try done.
    + by intros e' [= <-].
    + by intros [?|?].
  - rewrite Hskip. eexists _, _, _. split; [reflexivity|].
    split_and!; try done.
    + by intros [?|?].
    + intros _. split; [done|]. by left.
  - rewrite Hpublish. unfold publish.
    destruct (orderbook_callback_ md) eqn:Hcallback;
      [destruct callback|];
      (eexists _, _, _; split; [reflexivity|]); simpl;
      split_and!; try done; try (by intros [?|?]).
    + intros _. split; [done|]. right. split; [by left|].
      exists (Orderbook.mk instrument bids asks now). by split_and!.
    + intros _. split_and!; try done.
      exists (Orderbook.mk instrument bids asks now). by split_and!.
    + intros _. split_and!; try done.
      exists (Orderbook.mk instrument bids asks now). by split_and!.
    + intros _. split; [done|]. right. split; [by right|].
      exists (Orderbook.mk instrument bids asks now). by split_and!.
Qed.

(** Three notifications on a running client with a registered callback.
    One has a string for a bid price: it is dropped whole and the cached
    book stays.  The others are well formed and the callback throws on
    them, a [std::exception] for the first and something else for the
    second: the new book is in the cache both times. *)
Lemma processMessage_contained_witness :
  let notification (price : json) :=
    Some (JObject
      [("method", JString "subscription");
       ("params",
        JObject [("channel", JString "book.BTC-PERPETUAL.none.10.100ms");
                 ("data",
                  JObject [("asks", JArray [JArray [JNumber 50002; JNumber 2]]);
                           ("bids", JArray [JArray [price; JNumber 1]])])])]) in
  let md :=
    run [SetOrderbookCallback; Start;
         ProcessMessage 5 (notification (JNumber 50000))]
      MarketDataClient.init in
  processMessage_callback ThrowsException 9 (notification (JString "50000")) md
    = (md, [], Logged (Decoding type_error))
  ∧ (∃ md' book,
      processMessage_callback ThrowsException 9
        (notification (JNumber 49999)) md
        = (md', [OrderbookCallback book], Logged FromCallback)
      ∧ orderbooks_ md' !! "BTC-PERPETUAL" = Some book
      ∧ Orderbook.bids book = [Orderbook.mkLevel 49999 1]
      ∧ Orderbook.timestamp book = 9)
  ∧ (∃ md' book,
      processMessage_callback ThrowsOther 9
        (notification (JNumber 49999)) md
        = (md', [OrderbookCallback book], Escaped)
      ∧ orderbooks_ md' !! "BTC-PERPETUAL" = Some book
      ∧ Orderbook.bids book = [Orderbook.mkLevel 49999 1]
      ∧ Orderbook.timestamp book = 9).
Proof.
  intros notification md. split_and!.
  - destruct (processMessage_contained ThrowsException 9
                (notification (JString "50000")) md)
      as (md' & events & how & Hrun & _ & _ & _ & _ & Hdecoding & _).
    assert (how = Logged (Decoding type_error)) as Hhow.
    { assert ((processMessage_callback ThrowsException 9
                 (notification (JString "50000")) md).2
              = Logged (Decoding type_error)) as Hlogged
        by (vm_compute; reflexivity).
      by rewrite Hrun in Hlogged. }
    destruct (Hdecoding type_error Hhow) as (-> & -> & _).
    by rewrite Hrun, Hhow.
  - destruct (processMessage_contained ThrowsException 9
                (notification (JNumber 49999)) md)
      as (md' & events & how & Hrun & _ & _ & _ & _ & _ & Hthrown & _).
    assert (how = Logged FromCallback) as Hhow.
    { assert ((processMessage_callback ThrowsException 9
                 (notification (JNumber 49999)) md).2 = Logged FromCallback)
        as Hlogged by (vm_compute; reflexivity).
      by rewrite Hrun in Hlogged. }
    destruct (Hthrown (or_introl Hhow))
      as (_ & _ & _ & _ & book & Hnow & Hbooks & ->).
    exists md', book. rewrite Hrun, Hhow. split; [done|].
    assert (book = Orderbook.mk "BTC-PERPETUAL" [Orderbook.mkLevel 49999 1]
                     [Orderbook.mkLevel 50002 2] 9) as ->.
    { assert ((processMessage_callback ThrowsException 9
                 (notification (JNumber 49999)) md).1.2
              = [OrderbookCallback
                   (Orderbook.mk "BTC-PERPETUAL" [Orderbook.mkLevel 49999 1]
                      [Orderbook.mkLevel 50002 2] 9)]) as Hevents
        by (vm_compute; reflexivity).
      rewrite Hrun in Hevents. simpl in Hevents. by injection Hevents. }
    split_and!; try done.
    rewrite Hbooks. simpl. apply lookup_insert_eq.
  - destruct (processMessage_contained ThrowsOther 9
                (notification (JNumber 49999)) md)
      as (md' & events & how & Hrun & _ & _ & _ & _ & _ & Hthrown & _).
    assert (how = Escaped) as Hhow.
    { assert ((processMessage_callback ThrowsOther 9
                 (notification (JNumber 49999)) md).2 = Escaped)
        as Hlogged by (vm_compute; reflexivity).
      by rewrite Hrun in Hlogged. }
    destruct (Hthrown (or_intror Hhow))
      as (_ & _ & _ & _ & book & Hnow & Hbooks & ->).
    exists md', book. rewrite Hrun, Hhow. split; [done|].
    assert (book = Orderbook.mk "BTC-PERPETUAL" [Orderbook.mkLevel 49999 1]
                     [Orderbook.mkLevel 50002 2] 9) as ->.
    { assert ((processMessage_callback ThrowsOther 9
                 (notification (JNumber 49999)) md).1.2
              = [OrderbookCallback
                   (Orderbook.mk "BTC-PERPETUAL" [Orderbook.mkLevel 49999 1]
                      [Orderbook.mkLevel 50002 2] 9)]) as Hevents
        by (vm_compute; reflexivity).
      rewrite Hrun in Hevents. simpl in Hevents. by injection Hevents. }
    split_and!; try done.
    rewrite Hbooks. simpl. apply lookup_insert_eq.
Defined.

(** X19. A document that is not a "subscription" notification (any
    document that is not an object whose "method" member is that string), and
    a notification whose channel does not start with [book.], are ignored in
    silence: nothing changes, nobody is notified, nothing is logged. *)
Theorem processMessage_ignores (now : Z) (data : json)
    (md : MarketDataClient.t) :
  ((∀ members, data = JObject members →
               assoc "method" members ≠ Some (JString "subscription"))
   → processMessage now (Some data) md = (md, [], None))
  ∧ (∀ members params channel,
       data = JObject members →
       assoc "method" members = Some (JString "subscription") →
       assoc "params" members = Some (JObject params) →
       assoc "channel" params = Some (JString channel) →
       find channel "book." ≠ Some 0%nat →
       processMessage now (Some data) md = (md, [], None)).
Proof.
  unfold processMessage, ingest, is_channel_message. split.
  - intros Hmethod. destruct data as [| | | | |members]; try done.
    simpl. destruct (assoc "method" members) as [method|] eqn:Hm; simpl;
      [|done].
    destruct method as [| | |s| |]; simpl; try done.
    destruct (String.eqb_spec s "subscription") as [->|Hne]; [|done].
    by destruct (Hmethod members eq_refl).
  - intros members params channel -> Hmethod Hparams Hchannel Hprefix. simpl.
    rewrite Hmethod, Hparams. simpl.
    rewrite !(bool_decide_eq_true_2 (is_Some _)) by eauto. simpl.
    rewrite Hchannel. simpl.
    rewrite ?(bool_decide_eq_true_2 (is_Some _)) by eauto. simpl.
    by rewrite bool_decide_eq_false_2.
Qed.

Lemma processMessage_ignores_witness :
  let md := (start (setOrderbookCallback MarketDataClient.init)).1 in
  processMessage 5 (Some (JArray [JNumber 1])) md = (md, [], None)
  ∧ processMessage 5
      (Some (JObject
         [("method", JString "subscription");
          ("params",
           JObject [("channel", JString "trades.BTC-PERPETUAL.raw");
                    ("data", JObject [])])])) md
    = (md, [], None).
Proof.
  intros md. split.
  - apply (processMessage_ignores 5 (JArray [JNumber 1]) md). done.
  - eapply (processMessage_ignores 5 _ md); try reflexivity. done.
Defined.

Lemma index_cons_dot (c : ascii) (s : string) :
  String.index 0 "." (String c s)
  = if bool_decide (c = "."%char) then Some 0%nat
    else S <$> String.index 0 "." s.
Proof.
  cbn [String.index]. rewrite prefix_dot.
  case_bool_decide; [done|]. by destruct (String.index 0 "." s).
Qed.

Lemma no_dot_before_first (s : string) (k : nat) :
  find s "." = Some k → find (String.substring 0 k s) "." = None.
Proof.
  unfold find. revert k. induction s as [|c s IH]; intros k; [done|].
  rewrite index_cons_dot. case_bool_decide as Hc.
  - by intros [= <-].
  - destruct (String.index 0 "." s) as [k'|] eqn:Hs; [|done].
    intros [= <-]. cbn [String.substring]. rewrite index_cons_dot.
    rewrite bool_decide_eq_false_2 by done. by rewrite (IH k').
Qed.

Lemma channel_instrument_no_dot (channel : string) :
  find (channel_instrument channel) "." = None.
Proof.
  unfold channel_instrument.
  destruct (find (substr_from channel 5) ".") as [k|] eqn:Hdot; [|done].
  by apply no_dot_before_first.
Qed.

(** The three things [ingest] can do, with the instrument it files a book
    under. *)
Lemma ingest_cases (now : Z) (data : json) (md : MarketDataClient.t) :
  (∃ e, ingest now data md = Throw e)
  ∨ ingest now data md = Ok (md, [])
  ∨ ∃ channel bids asks,
      ingest now data md
      = Ok (publish (Orderbook.mk (channel_instrument channel) bids asks now)
              md).
Proof.
  unfold ingest.
  destruct (is_channel_message data) as [[|]|e]; simpl; [| |eauto]; [|eauto].
  destruct (subscript data "params") as [params|e]; simpl; [|eauto].
  destruct (subscript params "channel") as [j|e]; simpl; [|eauto].
  destruct (get_string j) as [channel|e]; simpl; [|eauto].
  case_bool_decide; [|eauto].
  destruct (subscript params "data") as [book|e]; simpl; [|eauto].
  destruct (read_levels book "bids") as [bids|e]; simpl; [|eauto].
  destruct (read_levels book "asks") as [asks|e]; simpl; [|eauto].
  right; right. eauto.
Qed.

(** X20. [processMessage] never files a book under a name that contains
    a dot: the instrument it takes from the channel stops at the first dot.
    So for a name with a dot, the cache entry, and with it the answer of
    [getOrderbook], is the same after any message as before. *)
Theorem dotted_instrument_never_stored (now junk : Z) (message : option json)
    (md : MarketDataClient.t) (instrument : string) :
  find instrument "." ≠ None →
  let md' := (processMessage now message md).1.1 in
  orderbooks_ md' !! instrument = orderbooks_ md !! instrument
  ∧ (getOrderbook junk instrument md').1 = (getOrderbook junk instrument md).1.
Proof.
  intros Hdot md'.
  assert (orderbooks_ md' !! instrument = orderbooks_ md !! instrument) as Hsame.
  { subst md'. unfold processMessage. destruct message as [data|]; [|done].
    destruct (ingest_cases now data md)
      as [[e ->]|[->|(channel & bids & asks & ->)]]; [done..|].
    simpl. apply lookup_insert_ne. intros <-.
    apply Hdot, channel_instrument_no_dot. }
  split; [done|]. unfold getOrderbook. rewrite Hsame.
  by destruct (orderbooks_ md !! instrument).
Qed.

(** A notification on the channel a subscription to "BTC.USD" would use:
    the book is filed under "BTC", and a query for "BTC.USD" finds nothing. *)
Lemma dotted_instrument_never_stored_witness :
  let message :=
    Some (JObject
      [("method", JString "subscription");
       ("params",
        JObject [("channel",
                  JString (ApiClient.orderbook_channel "BTC.USD"));
                 ("data",
                  JObject [("asks", JArray [JArray [JNumber 50001; JNumber 2]]);
                           ("bids", JArray [JArray [JNumber 50000; JNumber 1]])])])]) in
  let md' := (processMessage 5 message MarketDataClient.init).1.1 in
  orderbooks_ md' !! "BTC.USD" = None
  ∧ is_Some (orderbooks_ md' !! "BTC").
Proof.
  intros message md'.
  destruct (dotted_instrument_never_stored 5 0 message MarketDataClient.init
              "BTC.USD" ltac:(done)) as [Hsame _].
  split; [exact Hsame|]. vm_compute. eauto.
Defined.

Lemma append_assoc (a b c : string) : (a +:+ b) +:+ c = a +:+ b +:+ c.
Proof.
  induction a as [|x a IH]; [done|].
  change (String x a +:+ b) with (String x (a +:+ b)).
  change (String x (a +:+ b) +:+ c) with (String x ((a +:+ b) +:+ c)).
  change (String x a +:+ b +:+ c) with (String x (a +:+ b +:+ c)).
  by rewrite IH.
Qed.

(** X21. The channel that the API client subscribes for an instrument is
    recognised by [processMessage] as a book channel, and the instrument it
    reads back from it is the subscribed one exactly when that name has no
    dot; for a name with a dot it is the part before the first dot. *)
Theorem api_channel_round_trip (instrument : string) :
  find (ApiClient.orderbook_channel instrument) "book." = Some 0%nat
  ∧ (find instrument "." = None →
     channel_instrument (ApiClient.orderbook_channel instrument) = instrument)
  ∧ (∀ head tail,
       instrument = head +:+ "." +:+ tail →
       find head "." = None →
       channel_instrument (ApiClient.orderbook_channel instrument) = head).
Proof.
  unfold ApiClient.orderbook_channel. split_and!.
  - by destruct instrument.
  - intros Hdot.
    by apply (channel_instrument_book instrument "none.10.100ms").
  - intros head tail -> Hdot.
    rewrite !append_assoc.
    by apply (channel_instrument_book head (tail +:+ ".none.10.100ms")).
Qed.

Lemma api_channel_round_trip_witness :
  channel_instrument (ApiClient.orderbook_channel "BTC-PERPETUAL")
    = "BTC-PERPETUAL"
  ∧ channel_instrument (ApiClient.orderbook_channel "BTC.USD") = "BTC".
Proof.
  split.
  - apply (api_channel_round_trip "BTC-PERPETUAL"). reflexivity.
  - apply (api_channel_round_trip "BTC.USD" ) with (tail := "USD");
      reflexivity.
Defined.

Lemma collect_levels_entries (entries : list entry)
    (levels : list Orderbook.Level) :
  Forall (fun e => match e with
                   | Skipped j => passed_over j
                   | Priced _ _ => True
                   end) entries →
  collect_levels (entry_json <$> entries) levels
    = Ok (levels ++ omap entry_level entries).
Proof.
  intros Hentries. revert levels.
  induction Hentries as [|[j|level more] entries Hentry _ IH]; intros levels.
  - csimpl. by rewrite app_nil_r.
  - change (entry_json <$> Skipped j :: entries)
      with (j :: (entry_json <$> entries)).
    cbn [collect_levels]. unfold passed_over in Hentry. rewrite Hentry.
    apply IH.
  - csimpl. rewrite IH. destruct level. by rewrite <- app_assoc.
Qed.

(** X22. How a "bids" or "asks" member is read.  An absent member gives
    no levels.  Entries that are not arrays of at least two elements are
    passed over; every other entry gives one level, in order, made of its
    first two elements, whatever follows them.  If the first or second
    element of such an entry is not a number, reading throws a type error
    (and the message it belongs to is dropped). *)
Theorem read_levels_entries (book : list (string * json)) (key : string) :
  (assoc key book = None → read_levels (JObject book) key = Ok [])
  ∧ (∀ entries,
       assoc key book = Some (JArray (entry_json <$> entries)) →
       Forall (fun e => match e with
                        | Skipped j => passed_over j
                        | Priced _ _ => True
                        end) entries →
       read_levels (JObject book) key = Ok (omap entry_level entries))
  ∧ (∀ entries price size more rest,
       assoc key book
       = Some (JArray ((entry_json <$> entries)
                       ++ JArray (price :: size :: more) :: rest)) →
       Forall (fun e => match e with
                        | Skipped j => passed_over j
                        | Priced _ _ => True
                        end) entries →
       (∀ d, price ≠ JNumber d) ∨ (∀ d, size ≠ JNumber d) →
       read_levels (JObject book) key = Throw type_error).
Proof.
  unfold read_levels. simpl. split_and!.
  - intros ->. by rewrite bool_decide_eq_false_2 by (intros [? ?]; done).
  - intros entries -> Hentries.
    rewrite bool_decide_eq_true_2 by eauto. simpl.
    by rewrite collect_levels_entries.
  - intros entries price size more rest -> Hentries Hill.
    rewrite bool_decide_eq_true_2 by eauto. simpl.
    generalize (@nil Orderbook.Level).
    induction Hentries as [|[j|level more'] entries Hentry _ IH]; intros levels.
    + csimpl. destruct price; simpl; try done.
      * destruct size; simpl; try done.
        destruct Hill as [Hill|Hill]; by edestruct Hill.
    + change ((entry_json <$> Skipped j :: entries) ++ ?x)
        with (j :: ((entry_json <$> entries) ++ x)).
      cbn [collect_levels]. unfold passed_over in Hentry. rewrite Hentry.
      apply IH.
    + csimpl. apply IH.
Qed.

Lemma read_levels_entries_witness :
  let book :=
    [("bids",
      JArray [JArray [JNumber 50000; JNumber 1; JString "extra"];
              JString "noise";
              JArray [JNumber 49999];
              JArray [JNumber 49998; JNumber 3]])] in
  read_levels (JObject book) "bids"
    = Ok [Orderbook.mkLevel 50000 1; Orderbook.mkLevel 49998 3]
  ∧ read_levels (JObject book) "asks" = Ok [].
Proof.
  intros book.
  destruct (read_levels_entries book "bids") as (_ & Hbids & _).
  destruct (read_levels_entries book "asks") as (Hasks & _).
  split; [|by apply Hasks].
  apply (Hbids [Priced (Orderbook.mkLevel 50000 1) [JString "extra"];
                Skipped (JString "noise");
                Skipped (JArray [JNumber 49999]);
                Priced (Orderbook.mkLevel 49998 3) []]).
  - reflexivity.
  - repeat constructor.
Defined.

End order_book_cache_more.

(** ** Subscription broker: handlers, invariants and commands *)

Section subscription_broker_more.

Import WebSocketConnection WebSocketServer WebSocketHandlers.

(** [handleMessage] leaves the broker alone, or does what one subscription
    call does. *)
Lemma handleMessage_cases (connection : Pointer) (message : string)
    (ws : WebSocketServer.t) :
  (handleMessage connection message ws).1 = ws
  ∨ (∃ instrument,
       handleMessage connection message ws
       = addSubscription connection instrument ws)
  ∨ (∃ instrument,
       handleMessage connection message ws
       = removeSubscription connection instrument ws).
Proof.
  unfold handleMessage.
  repeat case_bool_decide; destruct (extract_instrument message); eauto.
Qed.

Lemma erase_subscriber_no_empty (client_id instrument : string)
    (by_instrument : gmap string (gset string)) :
  (∀ i ids, by_instrument !! i = Some ids → ids ≠ ∅) →
  ∀ i ids,
    erase_subscriber client_id instrument by_instrument !! i = Some ids →
    ids ≠ ∅.
Proof.
  intros Hfull i ids. unfold erase_subscriber.
  destruct (by_instrument !! instrument) as [old|] eqn:Hentry; [|apply Hfull].
  case_decide as Hempty.
  - destruct (decide (instrument = i)) as [<-|Hne].
    + by rewrite lookup_delete_eq.
    + rewrite lookup_delete_ne by done. apply Hfull.
  - destruct (decide (instrument = i)) as [<-|Hne].
    + rewrite lookup_insert_eq. by intros [= <-].
    + rewrite lookup_insert_ne by done. apply Hfull.
Qed.

Lemma addSubscription_no_empty (client : Pointer) (instrument : string)
    (ws : WebSocketServer.t) :
  no_empty_entry ws → no_empty_entry (addSubscription client instrument ws).1.
Proof.
  intros Hfull i ids. simpl.
  destruct (decide (instrument = i)) as [<-|Hne].
  - rewrite lookup_insert_eq. intros [= <-]. set_solver.
  - rewrite lookup_insert_ne by done. apply Hfull.
Qed.

Lemma removeSubscription_no_empty (client : Pointer) (instrument : string)
    (ws : WebSocketServer.t) :
  no_empty_entry ws →
  no_empty_entry (removeSubscription client instrument ws).1.
Proof.
  intros Hfull. unfold no_empty_entry. simpl.
  by apply erase_subscriber_no_empty.
Qed.

Lemma removeAllSubscriptions_no_empty (client : Pointer)
    (ws : WebSocketServer.t) :
  no_empty_entry ws → no_empty_entry (removeAllSubscriptions client ws).
Proof.
  intros Hfull. unfold no_empty_entry. simpl.
  generalize (in_order (default ∅ (client_subscriptions_ ws !! getId client))).
  intros instruments. revert Hfull. unfold no_empty_entry.
  generalize (instrument_subscribers_ ws).
  induction instruments as [|instrument instruments IH];
    intros by_instrument Hfull; [done|].
  simpl. apply IH. by apply erase_subscriber_no_empty.
Qed.

Lemma removeSubscription_keyed (client : Pointer) (instrument : string)
    (ws : WebSocketServer.t) :
  clients_keyed ws → clients_keyed (removeSubscription client instrument ws).1.
Proof. done. Qed.

Lemma removeAllSubscriptions_keyed (client : Pointer) (ws : WebSocketServer.t) :
  clients_keyed ws → clients_keyed (removeAllSubscriptions client ws).
Proof. done. Qed.

Lemma subscription_step_invariant (ws : WebSocketServer.t)
    (c : WebSocketServer.call) :
  broker_invariant ws → broker_invariant (WebSocketServer.step ws c).
Proof.
  intros (Hagree & Hkeyed & Hfull).
  destruct c as [client instrument|client instrument|client]; simpl.
  - split_and!; [by apply addSubscription_agree|done|
                 by apply addSubscription_no_empty].
  - split_and!; [by apply removeSubscription_agree|done|
                 by apply removeSubscription_no_empty].
  - split_and!; [by apply removeAllSubscriptions_agree|done|
                 by apply removeAllSubscriptions_no_empty].
Qed.

Lemma handler_step_invariant (ws : WebSocketServer.t) (c : call) :
  broker_invariant ws → broker_invariant (step ws c).
Proof.
  intros Hinv.
  destruct c as [connection|connection message|connection|c]; simpl.
  - destruct Hinv as (Hagree & Hkeyed & Hfull).
    split_and!; [done|by apply onAccept_keyed|done].
  - unfold onMessage.
    destruct (handleMessage_cases connection message ws)
      as [->|[[instrument ->]|[instrument ->]]]; [done| |].
    + apply (subscription_step_invariant ws
               (AddSubscription connection instrument) Hinv).
    + apply (subscription_step_invariant ws
               (RemoveSubscription connection instrument) Hinv).
  - destruct Hinv as (Hagree & Hkeyed & Hfull). split_and!.
    + by apply (removeAllSubscriptions_agree connection ws).
    + by apply onClose_keyed.
    + by apply (removeAllSubscriptions_no_empty connection ws).
  - by apply subscription_step_invariant.
Qed.

Lemma handler_run_invariant (calls : list call) :
  broker_invariant (run calls WebSocketServer.init).
Proof.
  induction calls as [|c calls IH] using rev_ind.
  - split_and!; [apply init_agree|apply init_keyed|].
    intros i ids. simpl. by rewrite lookup_empty.
  - unfold run. rewrite foldl_snoc. by apply handler_step_invariant.
Qed.

(** X23. Through every sequence of accepted connections, inbound
    messages, closed connections and subscription calls on a new broker, the
    two subscription indexes hold the same pairs and every entry of the
    connection table is filed under the id of its connection. *)
Theorem broker_consistent_under_handlers (calls : list call) :
  indexes_agree (run calls WebSocketServer.init)
  ∧ clients_keyed (run calls WebSocketServer.init).
Proof.
  destruct (handler_run_invariant calls) as (Hagree & Hkeyed & _). done.
Qed.

(** X24. The instrument index never keeps an empty subscriber set: in
    every broker state reached from a new one, an instrument has an entry
    only while at least one connection id is subscribed to it. *)
Theorem instrument_index_has_no_empty_entry (calls : list call)
    (instrument : string) (ids : gset string) :
  instrument_subscribers_ (run calls WebSocketServer.init) !! instrument
    = Some ids →
  ∃ client_id, client_id ∈ ids.
Proof.
  intros Hentry.
  destruct (handler_run_invariant calls) as (_ & _ & Hfull).
  apply set_choose_L. by apply (Hfull instrument ids).
Qed.

Lemma instrument_index_has_no_empty_entry_witness :
  let alice := {| object := 1; getId := "00000000000000a1" |} in
  let calls :=
    [OnAccept alice;
     OnMessage alice (command_text "subscribe" "BTC-PERPETUAL");
     OnMessage alice (command_text "subscribe" "ETH-PERPETUAL");
     OnMessage alice (command_text "unsubscribe" "BTC-PERPETUAL")] in
  instrument_subscribers_ (run calls WebSocketServer.init) !! "BTC-PERPETUAL"
    = None
  ∧ ∃ client_id ids,
      instrument_subscribers_ (run calls WebSocketServer.init)
        !! "ETH-PERPETUAL" = Some ids
      ∧ client_id ∈ ids.
Proof.
  intros alice calls. split; [vm_compute; reflexivity|].
  destruct (instrument_subscribers_ (run calls WebSocketServer.init)
              !! "ETH-PERPETUAL") as [ids|] eqn:Hentry;
    [|vm_compute in Hentry; discriminate].
  destruct (instrument_index_has_no_empty_entry calls "ETH-PERPETUAL" ids Hentry)
    as [client_id Hin].
  eauto.
Defined.

(** X25. Closing a connection removes every trace of it.  In a broker
    reached from a new one, after [onClose] the connection table has no
    entry for the connection's id, its subscriptions are empty, no
    instrument lists its id, and no later broadcast, to subscribers of any
    instrument or to all, sends anything to a connection with that id. *)
Theorem onClose_removes_connection (calls : list call) (connection : Pointer)
    (instrument message : string) :
  let ws := onClose connection (run calls WebSocketServer.init) in
  clients_ ws !! getId connection = None
  ∧ getSubscriptions connection ws = ∅
  ∧ (∀ i, getId connection ∉ default ∅ (instrument_subscribers_ ws !! i))
  ∧ (∀ client, getId client = getId connection →
       (Send client message
          ∉ (broadcastToSubscribers instrument message ws).2)
       ∧ (Send client message ∉ (broadcastToAll message ws).2)).
Proof.
  intros ws.
  destruct (handler_run_invariant calls) as (Hagree & Hkeyed & _).
  assert (clients_ ws !! getId connection = None) as Hgone.
  { subst ws. simpl. apply lookup_delete_eq. }
  assert (clients_keyed ws) as Hkeyed' by by apply onClose_keyed.
  split; [done|]. split.
  { subst ws. unfold getSubscriptions. simpl. by rewrite lookup_delete_eq. }
  split.
  { intros i Hin. subst ws.
    apply (removeAllSubscriptions_agree connection _ Hagree) in Hin.
    simpl in Hin. rewrite lookup_delete_eq in Hin. set_solver. }
  intros client Hid. split.
  - intros Hin. apply sends_resolved in Hin as (_ & client_id & _ & Hclient).
    rewrite <- (Hkeyed' _ _ Hclient), Hid in Hclient. congruence.
  - unfold broadcastToAll. simpl. intros Hin.
    apply list_elem_of_fmap in Hin as (c & [= <-] & Hin).
    apply list_elem_of_omap in Hin as (client_id & _ & Hclient).
    rewrite <- (Hkeyed' _ _ Hclient), Hid in Hclient. congruence.
Qed.

(** X26. [broadcastToAll] changes nothing in the broker and sends the
    message, and nothing else, once to the connection of every entry of the
    connection table, subscribed or not. *)
Theorem broadcastToAll_delivery (message : string) (ws : WebSocketServer.t) :
  ∃ events : list event,
    broadcastToAll message ws = (ws, events)
    ∧ (∀ client msg,
         Send client msg ∈ events
         ↔ msg = message ∧ ∃ client_id, clients_ ws !! client_id = Some client)
    ∧ (∀ client, Close client ∉ events)
    ∧ length events = base.size (clients_ ws).
Proof.
  unfold broadcastToAll. eexists. split; [reflexivity|].
  unfold resolve_clients. split_and!.
  - intros client msg. rewrite list_elem_of_fmap. split.
    + intros (c & [= -> ->] & Hin).
      apply list_elem_of_omap in Hin as (client_id & _ & Hclient). eauto.
    + intros (-> & client_id & Hclient). exists client. split; [done|].
      apply list_elem_of_omap. exists client_id. split; [|done].
      apply elem_of_in_order, elem_of_dom. eauto.
  - intros client Hin. apply list_elem_of_fmap in Hin as (c & Heq & _).
    discriminate Heq.
  - rewrite length_fmap.
    apply (length_in_key_order (clients_ ws)).
Qed.

Lemma onClose_removes_connection_witness :
  let alice := {| object := 1; getId := "00000000000000a1" |} in
  let bob := {| object := 2; getId := "00000000000000b2" |} in
  let calls :=
    [OnAccept alice; OnAccept bob;
     OnMessage alice (command_text "subscribe" "BTC-PERPETUAL");
     OnMessage bob (command_text "subscribe" "BTC-PERPETUAL")] in
  let ws := onClose alice (run calls WebSocketServer.init) in
  (broadcastToSubscribers "BTC-PERPETUAL" "m" ws).2 = [Send bob "m"]
  ∧ (Send alice "m" ∉ (broadcastToSubscribers "BTC-PERPETUAL" "m" ws).2)
  ∧ (Send alice "m" ∉ (broadcastToAll "m" ws).2).
Proof.
  intros alice bob calls ws.
  destruct (onClose_removes_connection calls alice "BTC-PERPETUAL" "m")
    as (_ & _ & _ & Hsilent).
  split; [vm_compute; reflexivity|].
  exact (Hsilent alice eq_refl).
Defined.

(** X27. Unsubscribing undoes subscribing.  In a broker reached from a new
    one, for a connection that is not subscribed to an instrument,
    [addSubscription] followed by [removeSubscription] of that pair restores
    the instrument index exactly and gives every connection the
    subscriptions it had; the connection table is not touched. *)
Theorem subscribe_then_unsubscribe (calls : list call) (client : Pointer)
    (instrument : string) :
  let ws := run calls WebSocketServer.init in
  instrument ∉ getSubscriptions client ws →
  let ws' :=
    (removeSubscription client instrument
       (addSubscription client instrument ws).1).1 in
  instrument_subscribers_ ws' = instrument_subscribers_ ws
  ∧ (∀ other, getSubscriptions other ws' = getSubscriptions other ws)
  ∧ clients_ ws' = clients_ ws.
Proof.
  intros ws Hnew ws'.
  destruct (handler_run_invariant calls) as (Hagree & _ & Hfull).
  fold ws in Hagree, Hfull. unfold getSubscriptions in *.
  assert (getId client
            ∉ default ∅ (instrument_subscribers_ ws !! instrument)) as Hnew'.
  { intros Hin. apply Hnew. by apply Hagree. }
  split_and!; [| |done].
  - subst ws'. simpl. unfold erase_subscriber.
    rewrite lookup_insert_eq.
    destruct (instrument_subscribers_ ws !! instrument) as [ids|] eqn:Hentry;
      simpl in *.
    + assert ((ids ∪ {[getId client]}) ∖ {[getId client]} = ids) as ->
        by set_solver.
      rewrite decide_False by by apply (Hfull instrument).
      rewrite insert_insert_eq. by apply insert_id.
    + assert ((∅ ∪ {[getId client]}) ∖ {[getId client]} = (∅ : gset string))
        as -> by set_solver.
      rewrite decide_True by done.
      rewrite delete_insert_eq. by apply delete_id.
  - intros other. subst ws'. simpl. rewrite lookup_insert_eq.
    destruct (decide (getId client = getId other)) as [<-|Hne].
    + rewrite insert_insert_eq, lookup_insert_eq. simpl. set_solver.
    + by rewrite insert_insert_eq, lookup_insert_ne.
Qed.

Lemma subscribe_then_unsubscribe_witness :
  let alice := {| object := 1; getId := "00000000000000a1" |} in
  let bob := {| object := 2; getId := "00000000000000b2" |} in
  let calls :=
    [OnAccept alice; OnAccept bob;
     OnMessage bob (command_text "subscribe" "BTC-PERPETUAL")] in
  let ws := run calls WebSocketServer.init in
  instrument_subscribers_
    (removeSubscription alice "BTC-PERPETUAL"
       (addSubscription alice "BTC-PERPETUAL" ws).1).1
  = instrument_subscribers_ ws.
Proof.
  intros alice bob calls ws.
  apply (subscribe_then_unsubscribe calls alice "BTC-PERPETUAL").
  compute_done.
Defined.

Lemma fmap_add_zero (x : option nat) : (fun k => 0 + k)%nat <$> x = x.
Proof. by destruct x. Qed.

Lemma index_skip (h rest pattern : string) :
  String.index (String.length h) pattern (h +:+ rest)
  = (fun k => String.length h + k)%nat <$> String.index 0 pattern rest.
Proof.
  induction h as [|c h IH]; [by rewrite fmap_add_zero|].
  change (String c h +:+ rest) with (String c (h +:+ rest)).
  cbn [String.length String.index]. rewrite IH.
  by destruct (String.index 0 pattern rest).
Qed.

Lemma substring_skip (h rest : string) (m : nat) :
  String.substring (String.length h) m (h +:+ rest) = String.substring 0 m rest.
Proof.
  induction h as [|c h IH]; [done|].
  change (String c h +:+ rest) with (String c (h +:+ rest)).
  by cbn [String.length String.substring].
Qed.

Lemma prefix_char (q c : ascii) (s : string) :
  String.prefix (String q "") (String c s) = bool_decide (c = q).
Proof.
  cbn [String.prefix]. destruct (ascii_dec q c) as [<-|Hne].
  - rewrite bool_decide_eq_true_2 by done. by destruct s.
  - by rewrite bool_decide_eq_false_2.
Qed.

Lemma index_char_cons (q c : ascii) (s : string) :
  String.index 0 (String q "") (String c s)
  = if bool_decide (c = q) then Some 0%nat
    else S <$> String.index 0 (String q "") s.
Proof.
  cbn [String.index]. rewrite prefix_char.
  case_bool_decide; [done|]. by destruct (String.index 0 (String q "") s).
Qed.

Lemma index_first_char (q : ascii) (s tail : string) :
  String.index 0 (String q "") s = None →
  String.index 0 (String q "") (s +:+ String q tail)
  = Some (String.length s).
Proof.
  induction s as [|c s IH].
  - intros _. change ("" +:+ String q tail) with (String q tail).
    rewrite index_char_cons. by rewrite bool_decide_eq_true_2.
  - change (String c s +:+ String q tail) with (String c (s +:+ String q tail)).
    rewrite !index_char_cons. case_bool_decide; [done|].
    destruct (String.index 0 (String q "") s); [done|].
    intros _. by rewrite IH.
Qed.

(** A pattern that starts with [q] does not occur where the text has
    another character. *)
Lemma index_cons_other (q c : ascii) (pattern s : string) :
  c ≠ q →
  String.index 0 (String q pattern) (String c s)
  = S <$> String.index 0 (String q pattern) s.
Proof.
  intros Hne. cbn [String.index String.prefix].
  destruct (ascii_dec q c) as [->|_]; [done|].
  by destruct (String.index 0 (String q pattern) s).
Qed.

Lemma index_cons_mismatch (pattern : string) (c : ascii) (s : string) :
  String.prefix pattern (String c s) = false →
  String.index 0 pattern (String c s) = S <$> String.index 0 pattern s.
Proof.
  intros Hprefix. cbn [String.index]. rewrite Hprefix.
  by destruct (String.index 0 pattern s).
Qed.

Lemma index_free_prefix (q : ascii) (pattern s tail : string) :
  String.index 0 (String q "") s = None →
  String.index 0 (String q pattern) (s +:+ tail)
  = (fun k => String.length s + k)%nat
      <$> String.index 0 (String q pattern) tail.
Proof.
  induction s as [|c s IH].
  - intros _. by rewrite fmap_add_zero.
  - change (String c s +:+ tail) with (String c (s +:+ tail)).
    rewrite index_char_cons. case_bool_decide as Hc; [done|].
    destruct (String.index 0 (String q "") s) eqn:Hs; [done|].
    intros _. rewrite index_cons_other by done. rewrite IH by done.
    by destruct (String.index 0 (String q pattern) tail).
Qed.

Lemma append_cons (c : ascii) (a b : string) :
  String c a +:+ b = String c (a +:+ b).
Proof. reflexivity. Qed.

Lemma append_empty (b : string) : "" +:+ b = b.
Proof. reflexivity. Qed.

Lemma length_append (a b : string) :
  String.length (a +:+ b) = (String.length a + String.length b)%nat.
Proof.
  induction a as [|c a IH]; [done|].
  rewrite append_cons. cbn [String.length]. by rewrite IH.
Qed.

Lemma prefix_until_char (q : ascii) (a b s tail : string) :
  String.index 0 (String q "") a = None →
  String.index 0 (String q "") s = None →
  String.prefix (a +:+ String q b) (s +:+ String q tail)
  = (bool_decide (a = s) && String.prefix b tail)%bool.
Proof.
  revert s. induction a as [|x a IH]; intros s Ha Hs.
  - rewrite append_empty. destruct s as [|c s].
    + rewrite append_empty. cbn [String.prefix].
      destruct (ascii_dec q q); [|done].
      by rewrite bool_decide_eq_true_2.
    + rewrite append_cons. rewrite index_char_cons in Hs.
      case_bool_decide as Hc; [done|]. cbn [String.prefix].
      destruct (ascii_dec q c) as [->|_]; [done|].
      by rewrite bool_decide_eq_false_2.
  - rewrite append_cons. rewrite index_char_cons in Ha.
    case_bool_decide as Hx; [done|].
    destruct (String.index 0 (String q "") a) eqn:Ha'; [done|].
    destruct s as [|c s].
    + rewrite append_empty. cbn [String.prefix].
      destruct (ascii_dec x q) as [->|_]; [done|].
      by rewrite bool_decide_eq_false_2.
    + rewrite append_cons. rewrite index_char_cons in Hs.
      case_bool_decide as Hc; [done|].
      destruct (String.index 0 (String q "") s) eqn:Hs'; [done|].
      cbn [String.prefix]. destruct (ascii_dec x c) as [->|Hne].
      * rewrite IH by done. f_equal.
        apply bool_decide_ext. split; [by intros ->|by intros [= ->]].
      * rewrite bool_decide_eq_false_2; [done|]. by intros [= -> _].
Qed.

(** The instrument is read back from a text that carries it, quoted, right
    after the 13 characters of the instrument pattern. *)
Lemma extract_instrument_quoted (open instrument tail : string) (k : nat) :
  find (open +:+ dq +:+ instrument +:+ dq +:+ tail) instrument_pattern
    = Some k →
  (k + 13)%nat = String.length open →
  find instrument dq = None →
  extract_instrument (open +:+ dq +:+ instrument +:+ dq +:+ tail)
  = Some instrument.
Proof.
  intros Hpattern Hlen Hfree. unfold extract_instrument.
  rewrite Hpattern, Hlen. unfold find_from, find, dq in *.
  rewrite <- (append_assoc open).
  set (head := open +:+ String "034"%char "").
  assert (String.length open + 1 = String.length head)%nat as Hhead.
  { subst head. by rewrite length_append. }
  rewrite Hhead, index_skip.
  rewrite (append_cons _ "" tail), append_empty.
  rewrite (index_first_char "034"%char instrument tail Hfree).
  cbn [fmap option_fmap option_map]. f_equal.
  replace (String.length head + String.length instrument
           - String.length open - 1)%nat
    with (String.length instrument) by lia.
  rewrite substring_skip. apply substring_prefix.
Qed.

Ltac expose_text :=
  unfold command_text, spaced_command_text, command_open, type_pattern,
    instrument_pattern, dq;
  rewrite ?append_assoc;
  repeat (rewrite append_cons || rewrite append_empty).

Lemma subscribe_pattern_absent (instrument : string) :
  find instrument dq = None →
  find (command_text "unsubscribe" instrument) (type_pattern "subscribe")
  = None.
Proof.
  intros Hfree. unfold find.
  assert (String.prefix (type_pattern "subscribe")
            (String "034"%char (instrument +:+ String "034"%char "}"))
          = false) as Hquote.
  { change (type_pattern "subscribe")
      with (String "034"%char
              ("type" +:+ String "034"%char (":" +:+ dq +:+ "subscribe" +:+ dq))).
    cbn [String.prefix]. destruct (ascii_dec "034" "034"); [|done].
    rewrite (prefix_until_char "034"%char) by done.
    apply andb_false_r. }
  change (type_pattern "subscribe")
    with (String "034"%char ("type" +:+ dq +:+ ":" +:+ dq +:+ "subscribe" +:+ dq))
    in *.
  expose_text.
  do 35 (rewrite index_cons_mismatch by reflexivity).
  rewrite index_cons_mismatch by exact Hquote.
  rewrite (index_free_prefix "034"%char) by exact Hfree.
  reflexivity.
Qed.

(** X28. The two commands of the downstream protocol do what they say.
    For an instrument name without a double quote, the text
    [{"type":"subscribe","instrument":"<name>"}] makes [handleMessage]
    perform [addSubscription] for the sender and that name, and the same
    text with "unsubscribe" makes it perform [removeSubscription], each with
    its confirmation to the sender. *)
Theorem handleMessage_commands (connection : Pointer) (instrument : string)
    (ws : WebSocketServer.t) :
  find instrument dq = None →
  handleMessage connection (command_text "subscribe" instrument) ws
    = addSubscription connection instrument ws
  ∧ handleMessage connection (command_text "unsubscribe" instrument) ws
    = removeSubscription connection instrument ws.
Proof.
  intros Hfree. unfold handleMessage. split.
  - assert (find (command_text "subscribe" instrument) (type_pattern "subscribe")
            = Some 1%nat) as -> by reflexivity.
    rewrite bool_decide_eq_true_2 by eauto.
    unfold command_text.
    by rewrite (extract_instrument_quoted (command_open "subscribe")
                  instrument "}" 20 eq_refl eq_refl Hfree).
  - rewrite (subscribe_pattern_absent instrument Hfree).
    rewrite bool_decide_eq_false_2 by (intros [? ?]; done).
    assert (find (command_text "unsubscribe" instrument)
              (type_pattern "unsubscribe") = Some 1%nat) as -> by reflexivity.
    rewrite bool_decide_eq_true_2 by eauto.
    unfold command_text.
    by rewrite (extract_instrument_quoted (command_open "unsubscribe")
                  instrument "}" 22 eq_refl eq_refl Hfree).
Qed.

Lemma handleMessage_commands_witness :
  let alice := {| object := 1; getId := "00000000000000a1" |} in
  let subscribed :=
    (handleMessage alice (command_text "subscribe" "BTC-PERPETUAL")
       WebSocketServer.init).1 in
  getSubscriptions alice subscribed = {["BTC-PERPETUAL"]}
  ∧ getSubscriptions alice
      (handleMessage alice (command_text "unsubscribe" "BTC-PERPETUAL")
         subscribed).1 = ∅.
Proof.
  intros alice subscribed.
  destruct (handleMessage_commands alice "BTC-PERPETUAL" WebSocketServer.init
              eq_refl) as [Hsub _].
  destruct (handleMessage_commands alice "BTC-PERPETUAL" subscribed eq_refl)
    as [_ Hunsub].
  rewrite Hunsub. subst subscribed. rewrite Hsub.
  split; compute_done.
Defined.

(** X29. What [handleMessage] does with other texts.  A text with neither
    command pattern gets the "Unknown command" error back, to the sender
    only, and changes nothing.  A text with a command pattern but no
    "instrument" member changes nothing and sends nothing, not even an
    error.  A command written with a space after the colon of the
    "instrument" member is taken as a command for the empty instrument
    name, whatever name it carries. *)
Theorem handleMessage_other_texts (connection : Pointer) (message : string)
    (ws : WebSocketServer.t) :
  (find message (type_pattern "subscribe") = None →
   find message (type_pattern "unsubscribe") = None →
   handleMessage connection message ws
     = (ws, [Send connection error_message]))
  ∧ (find message instrument_pattern = None →
     is_Some (find message (type_pattern "subscribe"))
     ∨ is_Some (find message (type_pattern "unsubscribe")) →
     handleMessage connection message ws = (ws, []))
  ∧ (∀ instrument,
       message = spaced_command_text "subscribe" instrument →
       handleMessage connection message ws = addSubscription connection "" ws).
Proof.
  unfold handleMessage. split_and!.
  - intros -> ->. by rewrite !bool_decide_eq_false_2 by (intros [? ?]; done).
  - intros Hnone Hcommand. unfold extract_instrument. rewrite Hnone.
    repeat case_bool_decide; try done. by destruct Hcommand.
  - intros instrument ->.
    assert (find (spaced_command_text "subscribe" instrument)
              (type_pattern "subscribe") = Some 1%nat) as -> by reflexivity.
    rewrite bool_decide_eq_true_2 by eauto.
    assert (extract_instrument (spaced_command_text "subscribe" instrument)
            = Some "") as ->; [|done].
    unfold extract_instrument.
    assert (find (spaced_command_text "subscribe" instrument)
              instrument_pattern = Some 20%nat) as -> by reflexivity.
    unfold find_from, spaced_command_text, find, dq.
    rewrite <- (append_assoc (command_open "subscribe")).
    change (20 + 13 + 1)%nat
      with (String.length (command_open "subscribe" +:+ " ")).
    rewrite index_skip, append_cons, append_empty, index_char_cons.
    rewrite bool_decide_eq_true_2 by done.
    cbn [fmap option_fmap option_map]. by f_equal.
Qed.

Lemma handleMessage_other_texts_witness :
  let alice := {| object := 1; getId := "00000000000000a1" |} in
  handleMessage alice "ping" WebSocketServer.init
    = (WebSocketServer.init, [Send alice error_message])
  ∧ handleMessage alice (type_pattern "subscribe") WebSocketServer.init
    = (WebSocketServer.init, [])
  ∧ getSubscriptions alice
      (handleMessage alice (spaced_command_text "subscribe" "BTC-PERPETUAL")
         WebSocketServer.init).1 = {[""]}.
Proof.
  intros alice. split_and!.
  - by apply (handleMessage_other_texts alice "ping" WebSocketServer.init).
  - apply (handleMessage_other_texts alice (type_pattern "subscribe")
             WebSocketServer.init); [reflexivity|].
    left. vm_compute. eauto.
  - destruct (handleMessage_other_texts alice
                (spaced_command_text "subscribe" "BTC-PERPETUAL")
                WebSocketServer.init) as (_ & _ & Hspaced).
    rewrite (Hspaced "BTC-PERPETUAL" eq_refl).
    compute_done.
Defined.

Lemma length_string_of_list_ascii (l : list ascii) :
  String.length (string_of_list_ascii l) = length l.
Proof. induction l as [|c l IH]; simpl; [done|]. by rewrite IH. Qed.

Lemma hex_at_in_alphabet (d : nat) :
  (d < 16)%nat → hex_at d ∈ list_ascii_of_string hex.
Proof.
  intros Hd.
  do 16 (destruct d as [|d]; [vm_compute; set_solver|]). lia.
Qed.

Lemma hex_at_inj (d d' : nat) :
  (d < 16)%nat → (d' < 16)%nat → hex_at d = hex_at d' → d = d'.
Proof.
  intros Hd Hd'.
  do 16 (destruct d as [|d];
         [do 16 (destruct d' as [|d']; [by vm_compute|]); lia|]).
  lia.
Qed.

(** X30. A connection id is sixteen characters long and, the draws being
    in 0..15 as the distribution guarantees, made of the characters
    [0123456789abcdef] only; two ids are equal only when all sixteen draws
    were equal. *)
Theorem generateRandomId_shape (dis dis' : nat → nat) :
  (∀ i, (i < 16)%nat → (dis i < 16)%nat ∧ (dis' i < 16)%nat) →
  String.length (generateRandomId dis) = 16%nat
  ∧ (∀ c, c ∈ list_ascii_of_string (generateRandomId dis) →
          c ∈ list_ascii_of_string hex)
  ∧ (generateRandomId dis = generateRandomId dis' →
     ∀ i, (i < 16)%nat → dis i = dis' i).
Proof.
  intros Hrange. unfold generateRandomId. split_and!.
  - by rewrite length_string_of_list_ascii, length_fmap.
  - intros c. rewrite list_ascii_of_string_of_list_ascii.
    intros (i & -> & Hi)%list_elem_of_fmap.
    apply hex_at_in_alphabet, Hrange.
    apply elem_of_seq in Hi. lia.
  - intros Heq i Hi.
    apply (f_equal list_ascii_of_string) in Heq.
    rewrite !list_ascii_of_string_of_list_ascii in Heq.
    assert (((fun i => hex_at (dis i)) <$> seq 0 16) !! i
            = ((fun i => hex_at (dis' i)) <$> seq 0 16) !! i) as Hat
      by by rewrite Heq.
    rewrite !list_lookup_fmap, lookup_seq_lt in Hat by done.
    injection Hat as Hat.
    apply hex_at_inj; [apply Hrange, Hi|apply Hrange, Hi|done].
Qed.

Lemma generateRandomId_shape_witness :
  let dis := fun i => ((i * 7) mod 16)%nat in
  generateRandomId dis = "07e5c3a18f6d4b29"
  ∧ String.length (generateRandomId dis) = 16%nat.
Proof.
  intros dis. split; [reflexivity|].
  apply (generateRandomId_shape dis dis).
  intros i Hi. split; apply Nat.mod_upper_bound; done.
Defined.

End subscription_broker_more.
